(** * SandboxIDE: a shallow embedding of [src/components/SandboxIDE.tsx]

    The playground keeps three pieces of session state (the editor buffer,
    the current producer and the history list), evaluates the buffer through
    a transpile / execute / classify pipeline behind a debounce timer, and
    shows the producer inside an error-catching wrapper.  Hook state becomes
    explicit state passing; JavaScript exceptions become a completion type;
    the host libraries (Babel, the script engine behind [new Function], the
    React and ReactDOM objects) are the fields of a type class. *)

From Stdlib Require Import ZArith NArith String Ascii List Lia Bool.
From stdpp Require Import base decidable option numbers strings list.

Set Warnings "-register-all".
Open Scope Z_scope.

(** ** JavaScript strings *)

(** A JavaScript string is a sequence of UTF-16 code units. *)
Definition code_unit := N.
Definition jsstring := list code_unit.

(** A literal of the source text (ASCII only in this program). *)
Definition lit (s : string) : jsstring :=
  map N_of_ascii (list_ascii_of_string s).

(** ECMAScript [WhiteSpace] and [LineTerminator], the code units that
    [String.prototype.trim] strips. *)
Definition isWhiteSpace (c : code_unit) : bool :=
  ((c =? 9) || (c =? 10) || (c =? 11) || (c =? 12) || (c =? 13)
   || (c =? 32) || (c =? 160) || (c =? 5760)
   || ((8192 <=? c) && (c <=? 8202))
   || (c =? 8232) || (c =? 8233) || (c =? 8239) || (c =? 8287)
   || (c =? 12288) || (c =? 65279))%N.

Fixpoint trimStart (s : jsstring) : jsstring :=
  match s with
  | [] => []
  | c :: r => if isWhiteSpace c then trimStart r else s
  end.

Definition trimEnd (s : jsstring) : jsstring := rev (trimStart (rev s)).

(** [String.prototype.trim] *)
Definition trim (s : jsstring) : jsstring := trimEnd (trimStart s).

(** ** JavaScript values *)

(** Numbers are kept to the integers, objects are ordered property lists
    (insertion order, as [Object.keys] reports it for identifier keys), and
    the functions this program builds are defunctionalised. *)
Inductive value :=
| VUndefined
| VNull
| VBool (b : bool)
| VNumber (n : Z)
| VString (s : jsstring)
| VObject (props : list (jsstring * value))
| VElement (type : string) (props : list (string * value)) (children : list value)
| VFunction (f : closure)
with closure :=
| ArrowNull                     (* [() => null], the initial producer *)
| ArrowConst (result : value)   (* [() => result], line 42 *)
| ArrowEvalError (error : value)(* the arrow function of the catch block *)
| UserFunction (id : N).        (* a function written by the user script *)

(** Abrupt and normal completion of a JavaScript computation. *)
Inductive completion (A : Type) :=
| Return (a : A)
| Throw (e : value).
Arguments Return {A} a.
Arguments Throw {A} e.

Definition bind {A B} (c : completion A) (k : A -> completion B) : completion B :=
  match c with
  | Return a => k a
  | Throw e => Throw e
  end.

(** [try { body } catch (error) { handler }] *)
Definition try_catch {A} (body : completion A) (handler : value -> completion A)
  : completion A :=
  match body with
  | Return a => Return a
  | Throw e => handler e
  end.

Notation "'let!' x ':=' c 'in' k" := (bind c (fun x => k))
  (at level 10, x name, c at level 100, k at level 200).

(** [ToBoolean] *)
Definition ToBoolean (v : value) : bool :=
  match v with
  | VUndefined | VNull => false
  | VBool b => b
  | VNumber n => negb (n =? 0)
  | VString s => match s with [] => false | _ => true end
  | VObject _ | VElement _ _ _ | VFunction _ => true
  end.

(** [a || b] on already evaluated operands. *)
Definition js_or (a b : value) : value := if ToBoolean a then a else b.

Fixpoint assoc {K V} `{EqDecision K} (k : K) (l : list (K * V)) : option V :=
  match l with
  | [] => None
  | (k', v) :: r => if decide (k = k') then Some v else assoc k r
  end.

(** [o[k] = v] on a property list: an existing key keeps its position. *)
Fixpoint obj_set {K V} `{EqDecision K} (k : K) (v : V) (l : list (K * V))
  : list (K * V) :=
  match l with
  | [] => [(k, v)]
  | (k', v') :: r => if decide (k = k') then (k, v) :: r else (k', v') :: obj_set k v r
  end.

(** [{ ...base, ...src }]: the properties of [src] are assigned in order. *)
Definition spread {K V} `{EqDecision K} (base src : list (K * V)) : list (K * V) :=
  fold_left (fun o kv => obj_set (fst kv) (snd kv) o) src base.

Definition TypeError (message : jsstring) : value :=
  VObject [(lit "name", VString (lit "TypeError")); (lit "message", VString message)].

(** Property read [v.k].  Reading from [undefined] or [null] throws. *)
Definition Get (v : value) (k : jsstring) : completion value :=
  match v with
  | VUndefined => Throw (TypeError (lit "Cannot read properties of undefined"))
  | VNull => Throw (TypeError (lit "Cannot read properties of null"))
  | VObject props => Return (default VUndefined (assoc k props))
  | _ => Return VUndefined
  end.

(** ** The history store (lines 172, 189, 196) *)

Module Item.
Record t := { name : jsstring; code : jsstring }.
End Item.

(** [Array.prototype.filter] with the two-argument callback. *)
Fixpoint filter_from {A} (p : A -> nat -> bool) (i : nat) (l : list A) : list A :=
  match l with
  | [] => []
  | x :: r => if p x i then x :: filter_from p (S i) r else filter_from p (S i) r
  end.

Definition Array_filter {A} (p : A -> nat -> bool) (l : list A) : list A :=
  filter_from p 0%nat l.

(** [prev => prev.filter((_, i) => i !== index)] *)
Definition onDelete (index : Z) (prev : list Item.t) : list Item.t :=
  Array_filter (fun _ i => negb (Z.of_nat i =? index)) prev.

(** [prev => [...prev, { name, code }]] *)
Definition onSave (name code : jsstring) (prev : list Item.t) : list Item.t :=
  prev ++ [{| Item.name := name; Item.code := code |}].

(** ** Host libraries

    Everything the module imports and does not define: Babel's [transform],
    the script engine reached through [new Function], and the two library
    objects.  The engine runs the transpiled text between the shim lines and
    the final [return] of the wrapper, starting from [module = { exports: {} }],
    and either throws (also for a text that [new Function] rejects) or
    finishes with some value in [module.exports]. *)

Record scope := {
  bindings : list (jsstring * value);        (* parameter names and arguments *)
  require : value -> completion value;       (* the shim of line 34 *)
}.

Class Host := {
  Babel_transform : jsstring -> completion jsstring;
  Function_body : jsstring -> scope -> completion value;
  User_call : N -> completion value;
  React_exports : list (jsstring * value);
  ReactDOM : value;
}.

Definition React `{Host} : value := VObject React_exports.

(** [React.isValidElement] *)
Definition isValidElement (v : value) : bool :=
  match v with
  | VElement _ _ _ => true
  | _ => false
  end.

Definition Object_keys {K V} (o : list (K * V)) : list K := map fst o.
Definition Object_values {K V} (o : list (K * V)) : list V := map snd o.

(** ** The pipeline (lines 6-51) *)

Definition DEBOUNCE_DELAY : Z := 500.

Record size := { width : Z; height : Z }.

#[global] Instance size_eq_dec : EqDecision size.
Proof. solve_decision. Defined.

Definition MOBILE_SIZES : list (jsstring * size) :=
  [ (lit "iPhone SE", {| width := 375; height := 667 |});
    (lit "iPhone XR", {| width := 414; height := 896 |});
    (lit "iPad", {| width := 768; height := 1024 |}) ].

Definition transpileCode `{Host} (code : jsstring) : completion jsstring :=
  Babel_transform code.

(** [{ React, ReactDOM, ...React }] *)
Definition createSandboxEnvironment `{Host} : list (jsstring * value) :=
  spread [(lit "React", React); (lit "ReactDOM", ReactDOM)] React_exports.

Definition ReferenceError (x : jsstring) : value :=
  VObject [(lit "name", VString (lit "ReferenceError"));
           (lit "message", VString (x ++ lit " is not defined"))].

Definition lookup_var (sc : list (jsstring * value)) (x : jsstring) : completion value :=
  match assoc x sc with
  | Some v => Return v
  | None => Throw (ReferenceError x)
  end.

(** [moduleName === 'react'] *)
Definition is_react (moduleName : value) : bool :=
  match moduleName with
  | VString s => bool_decide (s = lit "react")
  | _ => false
  end.

(** [(moduleName) => moduleName === 'react' ? React : ReactDOM], closed over
    the parameters of the wrapper. *)
Definition require_shim (params : list (jsstring * value)) (moduleName : value)
  : completion value :=
  if is_react moduleName then lookup_var params (lit "React")
  else lookup_var params (lit "ReactDOM").

(** [new Function(...keys, wrappedCode)] applied to [...args]: lines 32-41. *)
Definition func `{Host} (transpiledCode : jsstring)
    (keys : list jsstring) (args : list value) : completion value :=
  let params := combine keys args in
  let! exports := Function_body transpiledCode
               {| bindings := params; require := require_shim params |} in
  let! d := Get exports (lit "default") in
  Return (js_or d exports).

(** Line 42. *)
Definition classify (result : value) : value :=
  if isValidElement result then VFunction (ArrowConst result) else result.

Definition evaluateCode `{Host} (code : jsstring)
    (sandboxEnv : list (jsstring * value)) : completion value :=
  let! transpiledCode := transpileCode code in
  try_catch
    (let! result := func transpiledCode (Object_keys sandboxEnv) (Object_values sandboxEnv) in
     Return (classify result))
    (fun error => Return (VFunction (ArrowEvalError error))).

Definition box_class : value :=
  VString (lit "p-4 bg-red-100 border border-red-400 text-red-700 rounded").

(** The message box of lines 45-48 and 68-71; they differ in the heading. *)
Definition error_box (heading : string) (message : value) : value :=
  VElement "div" [("className", box_class)]
    [ VElement "h2" [("className", VString (lit "text-lg font-semibold mb-2"))]
        [VString (lit heading)];
      VElement "pre" [("className", VString (lit "whitespace-pre-wrap"))]
        [message] ].

(** Calling a producer with no arguments, as rendering [<Component />] does. *)
Definition call `{Host} (f : value) : completion value :=
  match f with
  | VFunction ArrowNull => Return VNull
  | VFunction (ArrowConst result) => Return result
  | VFunction (ArrowEvalError error) =>
      let! message := Get error (lit "message") in
      Return (error_box "Evaluation Error:" message)
  | VFunction (UserFunction id) => User_call id
  | _ => Throw (TypeError (lit "Component is not a function"))
  end.

Fixpoint call_times `{Host} (n : nat) (f : value) : list (completion value) :=
  match n with
  | O => []
  | S k => call f :: call_times k f
  end.

(** ** The debounced function (lines 4, 174-181) *)

Module Debounce.
(** Modelled from the spec: lodash's [debounce] is imported, not defined, by
    the sources.  Following the debounce policy of the spec, a call stores
    its argument and restarts the delay window, which cancels the
    invocation that was pending for the older argument; when the timer
    expires a full delay after the latest call, the wrapped function is
    invoked once with the latest argument. *)
Definition state := option (jsstring * Z).

Definition idle : state := None.

Definition invoke (now : Z) (arg : jsstring) (st : state) : state :=
  Some (arg, now).

Definition expire (wait now : Z) (st : state) : state * option jsstring :=
  match st with
  | Some (arg, lastCallTime) =>
      if lastCallTime + wait <=? now then (None, Some arg) else (st, None)
  | None => (None, None)
  end.
End Debounce.

(** ** Session state: the hooks of [Sandbox] and [CodeEditor] *)

Record page := {
  code : jsstring;                (* useState('') *)
  Component : value;              (* useState(() => () => null) *)
  history : list Item.t;          (* useState([]) *)
  componentName : jsstring;       (* CodeEditor: useState('') *)
  timer : Debounce.state;         (* the memoised debounced function *)
}.

Inductive output :=
| Evaluated (source : jsstring)   (* [evaluateCode] was entered with this text *)
| Uncaught (e : value)            (* an exception left the timer callback *)
| Alert (message : jsstring).

Definition setComponent (c : value) (st : page) : page :=
  {| code := code st; Component := c; history := history st;
     componentName := componentName st; timer := timer st |}.

Definition setHistory (f : list Item.t -> list Item.t) (st : page) : page :=
  {| code := code st; Component := Component st; history := f (history st);
     componentName := componentName st; timer := timer st |}.

Definition setComponentName (v : jsstring) (st : page) : page :=
  {| code := code st; Component := Component st; history := history st;
     componentName := v; timer := timer st |}.

(** [setCode] followed by the effect of lines 183-185, which runs only when
    the buffer changed. *)
Definition setCode (now : Z) (v : jsstring) (st : page) : page :=
  if decide (v = code st) then st
  else {| code := v; Component := Component st; history := history st;
          componentName := componentName st;
          timer := Debounce.invoke now v (timer st) |}.

(** Lines 134-141. *)
Definition handleSave (st : page) : page * list output :=
  if ToBoolean (VString (trim (componentName st)))
  then (setComponentName []
          (setHistory (onSave (componentName st) (code st)) st), [])
  else (st, [Alert (lit "Please enter a component name before saving.")]).

(** The function wrapped by [debounce], lines 175-179. *)
Definition evaluation `{Host} (source : jsstring) (st : page) : page * list output :=
  let sandboxEnv := createSandboxEnvironment in
  match evaluateCode source sandboxEnv with
  | Return evaluatedComponent =>
      (setComponent evaluatedComponent st, [Evaluated source])
  | Throw e => (st, [Evaluated source; Uncaught e])
  end.

Definition timerExpired `{Host} (now : Z) (st : page) : page * list output :=
  let '(t, fired) := Debounce.expire DEBOUNCE_DELAY now (timer st) in
  let st' := {| code := code st; Component := Component st; history := history st;
                componentName := componentName st; timer := t |} in
  match fired with
  | Some source => evaluation source st'
  | None => (st', [])
  end.

Inductive event :=
| Edit (value : jsstring)         (* textarea onChange *)
| NameInput (value : jsstring)    (* name input onChange *)
| Save                            (* Save button *)
| Load (index : nat)              (* Load button of the entry at [index] *)
| Delete (index : Z)              (* Delete button: [onDelete(index)] *)
| TimerExpired.

Definition step `{Host} (now : Z) (e : event) (st : page) : page * list output :=
  match e with
  | Edit v => (setCode now v st, [])
  | NameInput v => (setComponentName v st, [])
  | Save => handleSave st
  | Load index =>
      match history st !! index with
      | Some entry => (setCode now (Item.code entry) st, [])
      | None => (st, [])
      end
  | Delete index => (setHistory (onDelete index) st, [])
  | TimerExpired => timerExpired now st
  end.

Fixpoint run `{Host} (trace : list (Z * event)) (st : page) : page * list output :=
  match trace with
  | [] => (st, [])
  | (now, e) :: rest =>
      let '(st1, out1) := step now e st in
      let '(st2, out2) := run rest st1 in
      (st2, out1 ++ out2)
  end.

(** The state after the first render at time [now]: the effect has already
    handed the empty buffer to the debounced function. *)
Definition mount (now : Z) : page :=
  {| code := []; Component := VFunction ArrowNull; history := [];
     componentName := []; timer := Debounce.invoke now [] Debounce.idle |}.

Definition evaluated (out : list output) : list jsstring :=
  omap (fun o => match o with Evaluated s => Some s | _ => None end) out.

(** ** The preview: [MiniBrowser] and [ErrorBoundary] (lines 54-129) *)

Record preview := {
  isFullscreen : bool;
  mobileSize : option size;
  error : value;                  (* ErrorBoundary: useState(null) *)
  producer : value;               (* the [Component] of the latest [root.render] *)
  mounted : bool;                 (* the tree of the preview root is in place *)
}.

Inductive preview_event :=
| ToggleFullscreen
| SelectDevice (value : jsstring)   (* select onChange with [e.target.value] *)
| WindowError (event_error : value) (* the 'error' listener, [event.error] *)
| ProducerChanged (c : value).      (* the effect on [Component] *)

(** The values the select element offers: [""] for Desktop, then the keys. *)
Definition select_options : list jsstring := [] :: Object_keys MOBILE_SIZES.

(** What React accepts as the output of a component or as a child: text,
    numbers, elements of such children, and the values that show nothing; a
    plain object makes the render throw. *)
Fixpoint renderable (v : value) : bool :=
  match v with
  | VObject _ => false
  | VElement _ _ children => forallb renderable children
  | _ => true
  end.

(** Rendering [<Component />] goes through when the call returns something
    React accepts. *)
Definition children_render `{Host} (c : value) : bool :=
  match call c with
  | Return r => renderable r
  | Throw _ => false
  end.

(** Rendering the box of lines 67-72 goes through when React accepts
    [error.message] as a child. *)
Definition box_renders (err : value) : bool :=
  match Get err (lit "message") with
  | Return message => renderable message
  | Throw _ => false
  end.

(** Rendering [ErrorBoundary] with stored error [err] around producer [c]:
    a truthy error gives the box and leaves the children alone, any other
    gives the children. *)
Definition tree_renders `{Host} (err c : value) : bool :=
  if ToBoolean err then box_renders err else children_render c.

(** React renders the tree of lines 101-105 with stored error [err] and
    producer [c].  [ErrorBoundary] is a function component, so nothing in
    the tree catches a throw of the render: React then removes the whole
    tree from the root, the state of [ErrorBoundary] is gone with it (the
    next mount starts from [useState(null)]) and its listener is removed. *)
Definition commit `{Host} (pv : preview) (err c : value) : preview :=
  if tree_renders err c
  then {| isFullscreen := isFullscreen pv; mobileSize := mobileSize pv;
          error := err; producer := c; mounted := true |}
  else {| isFullscreen := isFullscreen pv; mobileSize := mobileSize pv;
          error := VNull; producer := c; mounted := false |}.

(** The argument of a [useState] setter: a function is run as an updater
    (on the previous state, which the arrows built here do not read), any
    other value is the new state. *)
Definition setState_payload `{Host} (payload : value) : completion value :=
  match payload with
  | VFunction _ => call payload
  | _ => Return payload
  end.

Definition preview_step `{Host} (e : preview_event) (pv : preview) : preview :=
  match e with
  | ToggleFullscreen =>
      {| isFullscreen := negb (isFullscreen pv); mobileSize := mobileSize pv;
         error := error pv; producer := producer pv; mounted := mounted pv |}
  | SelectDevice v =>
      {| isFullscreen := isFullscreen pv; mobileSize := assoc v MOBILE_SIZES;
         error := error pv; producer := producer pv; mounted := mounted pv |}
  | WindowError event_error =>
      (* [setError(event.error)], line 59; without the tree there is no
         listener *)
      if mounted pv
      then match setState_payload event_error with
           | Return err => commit pv err (producer pv)
           | Throw _ =>
               {| isFullscreen := isFullscreen pv; mobileSize := mobileSize pv;
                  error := VNull; producer := producer pv; mounted := false |}
           end
      else pv
  | ProducerChanged c =>
      (* [rootRef.current.render(...)], lines 99-107; a tree that is no
         longer in place is mounted afresh *)
      commit pv (if mounted pv then error pv else VNull) c
  end.

Definition preview_run `{Host} (es : list preview_event) (pv : preview) : preview :=
  fold_left (fun p e => preview_step e p) es pv.

(** What [ErrorBoundary] returns (lines 66-75). *)
Definition ErrorBoundary_view `{Host} (pv : preview) : completion value :=
  if ToBoolean (error pv)
  then let! message := Get (error pv) (lit "message") in
       Return (error_box "Runtime Error:" message)
  else call (producer pv).

Definition size_props (s : option size) : list (string * value) :=
  match s with
  | Some d => [("width", VNumber (width d)); ("height", VNumber (height d))]
  | None => []
  end.

(** [{ height: '400px', overflowY: 'auto', ...mobileSize }], line 124. *)
Definition output_style (pv : preview) : list (string * value) :=
  spread [("height", VString (lit "400px")); ("overflowY", VString (lit "auto"))]
    (size_props (mobileSize pv)).

(** The presets whose catalog entry is the selected size. *)
Definition active_presets (pv : preview) : list jsstring :=
  omap (fun kv => if decide (Some (snd kv) = mobileSize pv) then Some (fst kv) else None)
    MOBILE_SIZES.

Definition initial_preview : preview :=
  {| isFullscreen := false; mobileSize := None; error := VNull;
     producer := VFunction ArrowNull; mounted := true |}.

(** What the preview root shows: the output of [ErrorBoundary] while its
    tree is in place, nothing after the tree has been removed. *)
Definition displayed `{Host} (pv : preview) : option value :=
  if mounted pv
  then match ErrorBoundary_view pv with
       | Return v => Some v
       | Throw _ => None
       end
  else None.

(** ** Timed traces of edits *)

(** Time never runs backwards along a trace that starts at [t]. *)
Fixpoint chronological (t : Z) (trace : list (Z * event)) : Prop :=
  match trace with
  | [] => True
  | (t', _) :: rest => t <= t' /\ chronological t' rest
  end.

(** Every edit of the trace changes the buffer [buf] and arrives less than
    the debounce delay after the previous edit, made at time [last].  Timer
    expiries, name input, saves and deletions may happen in between; loading
    an entry is an edit of another kind and is kept out. *)
Fixpoint rapid_edits (last : Z) (buf : jsstring) (trace : list (Z * event)) : Prop :=
  match trace with
  | [] => True
  | (t, Edit v) :: rest =>
      t - last < DEBOUNCE_DELAY /\ v <> buf /\ rapid_edits t v rest
  | (_, Load _) :: _ => False
  | _ :: rest => rapid_edits last buf rest
  end.

(** The events that reach neither the buffer nor the debounced function. *)
Definition leaves_timer_alone (e : event) : Prop :=
  match e with
  | NameInput _ | Save | Delete _ => True
  | Edit _ | Load _ | TimerExpired => False
  end.

(** The time of the last edit of the trace. *)
Fixpoint final_time (last : Z) (trace : list (Z * event)) : Z :=
  match trace with
  | [] => last
  | (t, Edit _) :: rest => final_time t rest
  | _ :: rest => final_time last rest
  end.

(** The buffer after the last edit of the trace. *)
Fixpoint final_buffer (buf : jsstring) (trace : list (Z * event)) : jsstring :=
  match trace with
  | [] => buf
  | (_, Edit v) :: rest => final_buffer v rest
  | _ :: rest => final_buffer buf rest
  end.

(** ** The evaluation result in the words of the specification *)


(** ** A small host for running the definitions *)

Definition SyntaxError (message : jsstring) : value :=
  VObject [(lit "name", VString (lit "SyntaxError")); (lit "message", VString message)].

(** Babel rejects the unterminated tag ["<div"] and leaves plain scripts as
    they are; the engine knows three scripts. *)
Definition demo_host : Host :=
  {| Babel_transform code :=
       if decide (code = lit "<div")
       then Throw (SyntaxError (lit "/user-component.jsx: Unexpected token (1:4)"))
       else Return code;
     Function_body text sc :=
       if decide (text = lit "module.exports.default = 0;")
       then Return (VObject [(lit "default", VNumber 0)])
       else if decide (text = lit "module.exports = React.createElement('p', null, 'hi');")
       then Return (VElement "p" [] [VString (lit "hi")])
       else if decide (text = lit "module.exports = require('react');")
       then sc.(require) (VString (lit "react"))
       else if decide (text = lit "undefinedName;")
       then Throw (ReferenceError (lit "undefinedName"))
       else Return (VObject []);
     User_call _ := Return VNull;
     React_exports :=
       [(lit "createElement", VFunction (UserFunction 0));
        (lit "isValidElement", VFunction (UserFunction 1))];
     ReactDOM := VObject [(lit "createRoot", VFunction (UserFunction 2))] |}.

(** ** The mount point of [MiniBrowser] (lines 82-108) *)

Definition Error (message : jsstring) : value :=
  VObject [(lit "name", VString (lit "Error")); (lit "message", VString message)].

Module Root.
(** A root made by [ReactDOM.createRoot]: whether [unmount] has been called
    on it, and the [Component] of its latest [render]. *)
Record root := { unmounted : bool; rendered : option value }.

Record state := {
  container : bool;             (* [containerRef.current] holds the div *)
  rootRef : option nat;         (* [rootRef.current], a position in [roots] *)
  roots : list root;            (* the roots created so far, oldest first *)
}.

Definition initial : state :=
  {| container := false; rootRef := None; roots := [] |}.

(** [ReactDOM.createRoot(container)] *)
Definition createRoot (rs : list root) : nat * list root :=
  (length rs, rs ++ [{| unmounted := false; rendered := None |}]).

(** [root.render(...)]: React refuses to update an unmounted root. *)
Definition render (r : nat) (c : value) (rs : list root) : completion (list root) :=
  match rs !! r with
  | Some rt =>
      if unmounted rt then Throw (Error (lit "Cannot update an unmounted root."))
      else Return (<[r := {| unmounted := false; rendered := Some c |}]> rs)
  | None => Throw (Error (lit "Cannot update an unmounted root."))
  end.

(** [root.unmount()] *)
Definition unmount (r : nat) (rs : list root) : list root :=
  <[r := {| unmounted := true; rendered := None |}]> rs.

Inductive event :=
| Attach                        (* React stores the div in [containerRef] *)
| Detach                        (* React clears [containerRef] *)
| Setup                         (* the effect body of lines 86-88 *)
| Cleanup                       (* its cleanup, lines 91-94 *)
| Render (Component : value).   (* the effect body of lines 99-107 *)

Definition step (e : event) (st : state) : completion state :=
  match e with
  | Attach => Return {| container := true; rootRef := rootRef st; roots := roots st |}
  | Detach => Return {| container := false; rootRef := rootRef st; roots := roots st |}
  | Setup =>
      if container st && negb (bool_decide (is_Some (rootRef st)))
      then let '(r, rs) := createRoot (roots st) in
           Return {| container := container st; rootRef := Some r; roots := rs |}
      else Return st
  | Cleanup =>
      match rootRef st with
      | Some r => Return {| container := container st; rootRef := None;
                            roots := unmount r (roots st) |}
      | None => Return st
      end
  | Render c =>
      match rootRef st with
      | Some r =>
          let! rs := render r c (roots st) in
          Return {| container := container st; rootRef := Some r; roots := rs |}
      | None => Return st
      end
  end.

Fixpoint run (es : list event) (st : state) : completion state :=
  match es with
  | [] => Return st
  | e :: rest => let! st1 := step e st in run rest st1
  end.

(** The root in [rootRef] is live, and no other root is. *)
Definition consistent (st : state) : Prop :=
  forall i, (exists rt, roots st !! i = Some rt /\ unmounted rt = false)
            <-> rootRef st = Some i.
End Root.

(** ** Page and preview together *)

(** [<MiniBrowser Component={Component} />], line 202, followed by the
    effect of lines 98-108. *)
Definition show `{Host} (st : page) (pv : preview) : preview :=
  preview_step (ProducerChanged (Component st)) pv.

(** The argument held by the debounced function is the current buffer. *)
Definition pending_is_buffer (st : page) : Prop :=
  match timer st with
  | Some (arg, _) => arg = code st
  | None => True
  end.

Definition is_TimerExpired (e : event) : bool :=
  match e with TimerExpired => true | _ => false end.

Definition is_Delete (e : event) : bool :=
  match e with Delete _ => true | _ => false end.

Definition writes_history (e : event) : bool :=
  match e with Save | Delete _ => true | _ => false end.

Definition writes_code (e : event) : bool :=
  match e with Edit _ | Load _ => true | _ => false end.

Definition writes_name (e : event) : bool :=
  match e with NameInput _ | Save => true | _ => false end.

(** A select event carries one of the values the select element offers. *)
Definition offered (e : preview_event) : bool :=
  match e with
  | SelectDevice v => bool_decide (v ∈ select_options)
  | _ => true
  end.

Definition is_nullish (v : value) : bool :=
  match v with
  | VUndefined | VNull => true
  | _ => false
  end.

(** A second host, for scripts that leave or throw null. *)
Definition edge_host : Host :=
  {| Babel_transform code := Return code;
     Function_body text sc :=
       if decide (text = lit "module.exports = null;") then Return VNull
       else if decide (text = lit "throw null;") then Throw VNull
       else Return (VObject []);
     User_call _ := Return VNull;
     React_exports :=
       [(lit "createElement", VFunction (UserFunction 0));
        (lit "React", VString (lit "inner"))];
     ReactDOM := VObject [] |}.

(** The stored size is unset or the size of a catalog entry. *)
Definition catalog_size (pv : preview) : Prop :=
  mobileSize pv = None
  \/ exists name d, (name, d) ∈ MOBILE_SIZES /\ mobileSize pv = Some d.


(** * Properties *)

(** ** Strings *)

Lemma trimStart_nil_iff (s : jsstring) :
  trimStart s = [] <-> Forall (fun c => isWhiteSpace c = true) s.
Proof.
  induction s as [|c s IH]; simpl.
  - split; [constructor | reflexivity].
  - destruct (isWhiteSpace c) eqn:Hc.
    + rewrite IH. split.
      * intros Hs. constructor; assumption.
      * intros Hs. inversion Hs; assumption.
    + split; [discriminate|].
      intros Hs. inversion Hs; congruence.
Qed.

Lemma trimStart_head (s : jsstring) :
  trimStart s = [] \/ exists c r, trimStart s = c :: r /\ isWhiteSpace c = false.
Proof.
  induction s as [|c s IH]; simpl; [left; reflexivity|].
  destruct (isWhiteSpace c) eqn:Hc; [exact IH|].
  right. exists c, s. split; [reflexivity | exact Hc].
Qed.

Lemma trim_nil_iff (s : jsstring) :
  trim s = [] <-> Forall (fun c => isWhiteSpace c = true) s.
Proof.
  unfold trim, trimEnd.
  rewrite <- trimStart_nil_iff.
  split.
  - intros Ht.
    assert (Hr : trimStart (rev (trimStart s)) = []).
    { rewrite <- (rev_involutive (trimStart (rev (trimStart s)))), Ht. reflexivity. }
    apply trimStart_nil_iff in Hr.
    destruct (trimStart_head s) as [Hs | (c & r & Hs & Hc)]; [exact Hs|].
    rewrite Hs in Hr. apply Forall_rev in Hr. rewrite rev_involutive in Hr.
    inversion Hr; congruence.
  - intros ->. reflexivity.
Qed.

Lemma trim_Foo : trim (lit "Foo") = lit "Foo".
Proof. reflexivity. Qed.

(** ** History *)

Lemma filter_from_delete (index : Z) (k : nat) (l : list Item.t) :
  filter_from (fun _ i => negb (Z.of_nat i =? index)) k l =
  if decide (Z.of_nat k <= index < Z.of_nat k + Z.of_nat (length l))
  then delete (Z.to_nat index - k)%nat l
  else l.
Proof.
  revert k. induction l as [|x l IH]; intros k; simpl.
  - case_decide; [lia | reflexivity].
  - rewrite IH. destruct (Z.eqb_spec (Z.of_nat k) index) as [He|Hne]; simpl.
    + subst index. rewrite Nat2Z.id, Nat.sub_diag. simpl.
      repeat case_decide; try lia. reflexivity.
    + repeat case_decide; try lia; try reflexivity.
      replace (Z.to_nat index - k)%nat with (S (Z.to_nat index - S k)) by lia.
      reflexivity.
Qed.

Lemma onDelete_in_range (i : nat) (H : list Item.t) :
  (i < length H)%nat -> onDelete (Z.of_nat i) H = delete i H.
Proof.
  intros Hi. unfold onDelete, Array_filter. rewrite filter_from_delete.
  case_decide; [|lia]. rewrite Nat2Z.id, Nat.sub_0_r. reflexivity.
Qed.

(** A save under a name that [trim] does not empty: one entry at the end,
    the buffer kept, the name input cleared, nothing alerted. *)
Lemma handleSave_named (st : page) :
  trim (componentName st) <> [] ->
  handleSave st =
    ({| code := code st; Component := Component st;
        history := history st ++ [{| Item.name := componentName st; Item.code := code st |}];
        componentName := []; timer := timer st |}, []).
Proof.
  intros Hn. unfold handleSave. simpl.
  destruct (trim (componentName st)) as [|c r]; [congruence|]. reflexivity.
Qed.

Lemma handleSave_unnamed (st : page) :
  trim (componentName st) = [] ->
  handleSave st = (st, [Alert (lit "Please enter a component name before saving.")]).
Proof. intros Hn. unfold handleSave. simpl. rewrite Hn. reflexivity. Qed.

(** C6: with a name in the name input that [trim] does not empty ("Foo"
    is one), a save turns the history [H] into [H] followed by exactly the
    one entry made of that name and the buffer [X]: the list is one longer,
    every older entry keeps its position, the new entry is the last one,
    and the editor buffer is still [X]. *)
Theorem save_appends_one_entry
    (H : list Item.t) (X n : jsstring) (C : value) (pending : Debounce.state) :
  trim n <> [] ->
  let st := {| code := X; Component := C; history := H;
               componentName := n; timer := pending |} in
  let st' := fst (handleSave st) in
  history st' = H ++ [{| Item.name := n; Item.code := X |}]
  /\ length (history st') = S (length H)
  /\ (forall j e, H !! j = Some e -> history st' !! j = Some e)
  /\ history st' !! length H = Some {| Item.name := n; Item.code := X |}
  /\ code st' = X.
Proof.
  intros Hn st st'. subst st'. rewrite handleSave_named by (subst st; exact Hn).
  subst st. simpl. repeat split.
  - rewrite length_app. simpl. lia.
  - intros j e Hj. rewrite lookup_app_l; [exact Hj|].
    eapply lookup_lt_Some; eassumption.
  - rewrite lookup_app_r by lia. rewrite Nat.sub_diag. reflexivity.
Qed.

Lemma save_appends_one_entry_witness :
  let old := {| Item.name := lit "A"; Item.code := lit "a" |} in
  let st := {| code := lit "<p/>"; Component := VNull; history := [old];
               componentName := lit "Foo"; timer := None |} in
  trim (lit "Foo") <> []
  /\ history (fst (handleSave st)) =
       [old; {| Item.name := lit "Foo"; Item.code := lit "<p/>" |}]
  /\ code (fst (handleSave st)) = lit "<p/>".
Proof.
  intros old st.
  assert (Hn : trim (lit "Foo") <> []) by (vm_compute; discriminate).
  split; [exact Hn|].
  destruct (save_appends_one_entry [old] (lit "<p/>") (lit "Foo") VNull None Hn)
    as (Hh & _ & _ & _ & Hc).
  split; [exact Hh | exact Hc].
Defined.

(** C7: deleting at a valid position [i] gives a list one shorter, in which
    the entries before [i] are where they were and every entry formerly at a
    position [j > i] is now at [j - 1]. *)
Theorem delete_shifts_later_entries (H : list Item.t) (i : nat) :
  (i < length H)%nat ->
  let H' := onDelete (Z.of_nat i) H in
  length H' = (length H - 1)%nat
  /\ (forall j, (j < i)%nat -> H' !! j = H !! j)
  /\ (forall j, (i < j)%nat -> H' !! (j - 1)%nat = H !! j).
Proof.
  intros Hi H'. subst H'. rewrite onDelete_in_range by exact Hi.
  split; [|split].
  - rewrite length_delete; [lia|]. apply lookup_lt_is_Some_2. exact Hi.
  - intros j Hj. apply list_lookup_delete_lt. exact Hj.
  - intros j Hj. rewrite list_lookup_delete_ge by lia.
    f_equal. lia.
Qed.

Lemma delete_shifts_later_entries_witness :
  let H := [ {| Item.name := lit "A"; Item.code := lit "a" |};
             {| Item.name := lit "B"; Item.code := lit "b" |};
             {| Item.name := lit "C"; Item.code := lit "c" |} ] in
  (1 < length H)%nat
  /\ onDelete 1 H = [ {| Item.name := lit "A"; Item.code := lit "a" |};
                      {| Item.name := lit "C"; Item.code := lit "c" |} ]
  /\ length (onDelete 1 H) = (length H - 1)%nat.
Proof.
  intros H.
  assert (Hi : (1 < length H)%nat) by (simpl; lia).
  split; [exact Hi|]. split; [reflexivity|].
  exact (proj1 (delete_shifts_later_entries H 1 Hi)).
Defined.

(** C9: a save with an empty or all-whitespace name changes neither the
    history nor the buffer; an entry is appended exactly when the trimmed
    name is not empty, and that save clears the name input. *)
Theorem save_requires_name (st : page) :
  (Forall (fun c => isWhiteSpace c = true) (componentName st) ->
     history (fst (handleSave st)) = history st
     /\ code (fst (handleSave st)) = code st
     /\ fst (handleSave st) = st)
  /\ (trim (componentName st) <> [] <->
        exists entry, history (fst (handleSave st)) = history st ++ [entry])
  /\ (trim (componentName st) <> [] ->
        componentName (fst (handleSave st)) = []
        /\ code (fst (handleSave st)) = code st).
Proof.
  split; [|split].
  - intros Hws. apply trim_nil_iff in Hws.
    rewrite handleSave_unnamed by exact Hws. simpl. auto.
  - split.
    + intros Hn. rewrite handleSave_named by exact Hn. simpl. eauto.
    + intros [entry He] Hn. rewrite handleSave_unnamed in He by exact Hn.
      simpl in He. apply (f_equal length) in He.
      rewrite length_app in He. simpl in He. lia.
  - intros Hn. rewrite handleSave_named by exact Hn. simpl. auto.
Qed.

Lemma save_requires_name_witness :
  let blank := {| code := lit "x"; Component := VNull; history := [];
                  componentName := lit "  "; timer := None |} in
  let named := {| code := lit "x"; Component := VNull; history := [];
                  componentName := lit " Foo "; timer := None |} in
  history (fst (handleSave blank)) = [] /\ componentName (fst (handleSave named)) = [].
Proof.
  intros blank named. split.
  - apply (proj1 (save_requires_name blank)).
    subst blank. simpl. repeat constructor.
  - apply (proj2 (proj2 (save_requires_name named))).
    subst named. vm_compute. discriminate.
Defined.

(** C10: deletion is total, and at an index outside the list (negative, or
    at least the length) it gives the list back unchanged. *)
Theorem delete_out_of_range (H : list Item.t) (i : Z) :
  i < 0 \/ Z.of_nat (length H) <= i ->
  onDelete i H = H.
Proof.
  intros Hi. unfold onDelete, Array_filter. rewrite filter_from_delete.
  case_decide; [lia | reflexivity].
Qed.

Lemma delete_out_of_range_witness :
  let H := [ {| Item.name := lit "A"; Item.code := lit "a" |} ] in
  onDelete (-1) H = H /\ onDelete 1 H = H.
Proof.
  intros H. split.
  - apply delete_out_of_range. left. lia.
  - apply delete_out_of_range. right. simpl. lia.
Defined.

(** ** The pipeline *)

Lemma combine_keys_values {K V} (o : list (K * V)) :
  combine (Object_keys o) (Object_values o) = o.
Proof.
  induction o as [|[k v] o IH]; simpl; [reflexivity|].
  f_equal. exact IH.
Qed.




Section Pipeline.
Context `{Host}.


(** Line 42 is reached with the value the wrapper returned. *)
Lemma evaluateCode_returns (code t : jsstring) env (result : value) :
  transpileCode code = Return t ->
  func t (Object_keys env) (Object_values env) = Return result ->
  evaluateCode code env = Return (classify result).
Proof.
  intros Ht Hf. unfold evaluateCode. rewrite Ht. simpl. rewrite Hf. reflexivity.
Qed.

(** The sibling path: an exception of the wrapper is caught, and the
    producer built from it renders the box headed "Evaluation Error:". *)
Lemma evaluateCode_catches_execution (code t : jsstring) env (e : value) :
  transpileCode code = Return t ->
  func t (Object_keys env) (Object_values env) = Throw e ->
  evaluateCode code env = Return (VFunction (ArrowEvalError e))
  /\ call (VFunction (ArrowEvalError e)) =
       (let! message := Get e (lit "message") in
        Return (error_box "Evaluation Error:" message)).
Proof.
  intros Ht Hf. unfold evaluateCode. rewrite Ht. simpl. rewrite Hf. split; reflexivity.
Qed.

Lemma call_times_const (n : nat) (result : value) :
  call_times n (VFunction (ArrowConst result)) = repeat (Return result) n.
Proof. induction n as [|n IH]; simpl; [reflexivity|]. rewrite IH. reflexivity. Qed.


(** C1: when the transform step throws, [evaluateCode] does not reach its
    [try] block: the exception leaves [evaluateCode] and the timer
    callback, no producer is built, and the callback leaves the producer,
    the buffer and the history as they were. *)
Theorem transpile_failure_escapes (source : jsstring) (e : value) (st : page) :
  transpileCode source = Throw e ->
  evaluateCode source createSandboxEnvironment = Throw e
  /\ evaluation source st = (st, [Evaluated source; Uncaught e])
  /\ Component (fst (evaluation source st)) = Component st
  /\ code (fst (evaluation source st)) = code st
  /\ history (fst (evaluation source st)) = history st.
Proof.
  intros Ht.
  assert (He : evaluateCode source createSandboxEnvironment = Throw e).
  { unfold evaluateCode. rewrite Ht. reflexivity. }
  unfold evaluation. rewrite He. simpl. repeat split.
Qed.


(** C3: a valid element is wrapped into a producer that returns that same
    element on every call; any other result, callable or not, is handed
    on as it is. *)
Theorem classify_wraps_elements_only (result : value) :
  (isValidElement result = true ->
     classify result = VFunction (ArrowConst result)
     /\ forall n, call_times n (classify result) = repeat (Return result) n)
  /\ (isValidElement result = false -> classify result = result).
Proof.
  unfold classify. split; intros Hv; rewrite Hv; [|reflexivity].
  split; [reflexivity|]. intros n. apply call_times_const.
Qed.

End Pipeline.

(** *** The pipeline on the demo host *)

Lemma transpile_failure_escapes_witness :
  let e := SyntaxError (lit "/user-component.jsx: Unexpected token (1:4)") in
  @transpileCode demo_host (lit "<div") = Throw e
  /\ @evaluation demo_host (lit "<div") (mount 0) =
       (mount 0, [Evaluated (lit "<div"); Uncaught e])
  /\ Component (fst (@evaluation demo_host (lit "<div") (mount 0))) = VFunction ArrowNull.
Proof.
  intros e.
  assert (Ht : @transpileCode demo_host (lit "<div") = Throw e) by reflexivity.
  split; [exact Ht|].
  destruct (@transpile_failure_escapes demo_host (lit "<div") e (mount 0) Ht)
    as (_ & Hev & Hc & _).
  split; [exact Hev | exact Hc].
Defined.

(** An exception of the executed script, by contrast, becomes the box. *)
Example execution_failure_is_boxed :
  let env := @createSandboxEnvironment demo_host in
  exists producer,
    @evaluateCode demo_host (lit "undefinedName;") env = Return producer
    /\ @call demo_host producer =
         Return (error_box "Evaluation Error:" (VString (lit "undefinedName is not defined"))).
Proof. eexists. split; reflexivity. Qed.



Lemma classify_wraps_elements_only_witness :
  let element := VElement "p" [] [VString (lit "hi")] in
  @call_times demo_host 3 (classify element) = [Return element; Return element; Return element]
  /\ classify (VNumber 7) = VNumber 7.
Proof.
  intros element. split.
  - exact (proj2 (proj1 (@classify_wraps_elements_only demo_host element) eq_refl) 3%nat).
  - exact (proj2 (@classify_wraps_elements_only demo_host (VNumber 7)) eq_refl).
Defined.

(** ** The preview *)



Section Preview.
Context `{Host}.

Lemma commit_frame (pv : preview) (err c : value) :
  isFullscreen (commit pv err c) = isFullscreen pv
  /\ mobileSize (commit pv err c) = mobileSize pv
  /\ producer (commit pv err c) = c.
Proof. unfold commit. destruct (tree_renders err c); repeat split. Qed.


(** With a falsy stored error [ErrorBoundary] hands back its children. *)
Lemma commit_falsy (pv : preview) (err c : value) :
  ToBoolean err = false ->
  ToBoolean (error (commit pv err c)) = false
  /\ ErrorBoundary_view (commit pv err c) = call c.
Proof.
  intros Herr. unfold commit. destruct (tree_renders err c); simpl.
  - split; [exact Herr|]. unfold ErrorBoundary_view. simpl. rewrite Herr. reflexivity.
  - split; reflexivity.
Qed.

Lemma show_falsy (st : page) (pv : preview) :
  ToBoolean (error pv) = false ->
  ToBoolean (error (show st pv)) = false
  /\ ErrorBoundary_view (show st pv) = call (Component st).
Proof.
  intros Herr. unfold show. simpl. apply commit_falsy.
  destruct (mounted pv); [exact Herr | reflexivity].
Qed.





End Preview.



(** Without a stored error the same producers are rendered. *)
Example preview_shows_children :
  let element := VElement "p" [] [VString (lit "hi")] in
  @displayed demo_host
     (@preview_run demo_host [ProducerChanged (VFunction (ArrowConst element))]
        initial_preview)
  = Some element.
Proof. reflexivity. Qed.

Lemma catalog_entries (name : jsstring) (d : size) :
  (name, d) ∈ MOBILE_SIZES ->
  (name = lit "iPhone SE" /\ d = {| width := 375; height := 667 |})
  \/ (name = lit "iPhone XR" /\ d = {| width := 414; height := 896 |})
  \/ (name = lit "iPad" /\ d = {| width := 768; height := 1024 |}).
Proof.
  unfold MOBILE_SIZES. rewrite !elem_of_cons, elem_of_nil.
  intros [Heq | [Heq | [Heq | []]]]; inversion Heq; auto.
Qed.

Section Viewport.
Context `{Host}.

(** C8: selecting a preset of the catalog stores that preset's dimensions
    and the output area gets exactly that width and height; selecting
    Desktop (the empty value) stores no size and the style is the default
    one, without a width; and in every state at most one preset of the
    catalog is the selected one. *)
Theorem device_preset_selection (pv : preview) :
  (forall name d, (name, d) ∈ MOBILE_SIZES ->
     let pv' := preview_step (SelectDevice name) pv in
     mobileSize pv' = Some d
     /\ assoc "width" (output_style pv') = Some (VNumber (width d))
     /\ assoc "height" (output_style pv') = Some (VNumber (height d)))
  /\ (let pv' := preview_step (SelectDevice []) pv in
      mobileSize pv' = None
      /\ output_style pv' =
           [("height", VString (lit "400px")); ("overflowY", VString (lit "auto"))])
  /\ (length (active_presets pv) <= 1)%nat.
Proof.
  split; [|split].
  - intros name d Hin pv'. subst pv'.
    destruct (catalog_entries name d Hin) as [[-> ->] | [[-> ->] | [-> ->]]];
      repeat split.
  - split; reflexivity.
  - unfold active_presets, MOBILE_SIZES. simpl.
    repeat case_decide; simpl; try lia; congruence.
Qed.

End Viewport.

Lemma device_preset_selection_witness :
  let pv := @preview_step demo_host (SelectDevice (lit "iPad")) initial_preview in
  mobileSize pv = Some {| width := 768; height := 1024 |}
  /\ output_style pv =
       [("height", VNumber 1024); ("overflowY", VString (lit "auto")); ("width", VNumber 768)]
  /\ active_presets pv = [lit "iPad"].
Proof.
  intros pv. split; [|split; reflexivity].
  apply (proj1 (@device_preset_selection demo_host initial_preview) (lit "iPad")).
  unfold MOBILE_SIZES. rewrite !elem_of_cons. auto.
Defined.

(** ** Debouncing *)

Section Coalescing.
Context `{Host}.

Lemma run_cons (now : Z) (e : event) (rest : list (Z * event)) (st : page) :
  run ((now, e) :: rest) st =
    (fst (run rest (fst (step now e st))),
     snd (step now e st) ++ snd (run rest (fst (step now e st)))).
Proof.
  simpl. destruct (step now e st) as [st1 out1]. simpl.
  destruct (run rest st1) as [st2 out2]. reflexivity.
Qed.

Lemma evaluated_app (out1 out2 : list output) :
  evaluated (out1 ++ out2) = evaluated out1 ++ evaluated out2.
Proof. apply omap_app. Qed.

Lemma evaluated_cons (now : Z) (e : event) (rest : list (Z * event)) (st : page) :
  evaluated (snd (run ((now, e) :: rest) st)) =
    evaluated (snd (step now e st))
    ++ evaluated (snd (run rest (fst (step now e st)))).
Proof. rewrite run_cons. simpl snd. apply evaluated_app. Qed.

(** The wrapped function touches neither the buffer nor the timer, and
    enters the pipeline once, with its argument. *)
Lemma evaluation_frame (source : jsstring) (st : page) :
  code (fst (evaluation source st)) = code st
  /\ timer (fst (evaluation source st)) = timer st
  /\ evaluated (snd (evaluation source st)) = [source].
Proof.
  unfold evaluation. destruct (evaluateCode source createSandboxEnvironment);
    simpl; repeat split.
Qed.

Lemma step_frame (now : Z) (e : event) (st : page) :
  leaves_timer_alone e ->
  code (fst (step now e st)) = code st
  /\ timer (fst (step now e st)) = timer st
  /\ evaluated (snd (step now e st)) = [].
Proof.
  destruct e; simpl; try contradiction; intros _; try (repeat split; reflexivity).
  unfold handleSave. destruct (ToBoolean _); simpl; repeat split.
Qed.

Lemma timerExpired_idle (now : Z) (st : page) :
  timer st = None ->
  timer (fst (timerExpired now st)) = None
  /\ code (fst (timerExpired now st)) = code st
  /\ evaluated (snd (timerExpired now st)) = [].
Proof. intros Ht. unfold timerExpired. rewrite Ht. simpl. repeat split. Qed.

Lemma timerExpired_early (now last : Z) (buf : jsstring) (st : page) :
  timer st = Some (buf, last) -> now < last + DEBOUNCE_DELAY ->
  timer (fst (timerExpired now st)) = Some (buf, last)
  /\ code (fst (timerExpired now st)) = code st
  /\ evaluated (snd (timerExpired now st)) = [].
Proof.
  intros Ht Hnow. unfold timerExpired. rewrite Ht. simpl.
  destruct (Z.leb_spec (last + DEBOUNCE_DELAY) now); [lia|].
  simpl. repeat split.
Qed.

Lemma timerExpired_due (now last : Z) (buf : jsstring) (st : page) :
  timer st = Some (buf, last) -> last + DEBOUNCE_DELAY <= now ->
  timer (fst (timerExpired now st)) = None
  /\ code (fst (timerExpired now st)) = code st
  /\ evaluated (snd (timerExpired now st)) = [buf].
Proof.
  intros Ht Hnow. unfold timerExpired. rewrite Ht. simpl.
  destruct (Z.leb_spec (last + DEBOUNCE_DELAY) now); [|lia].
  match goal with |- context [evaluation buf ?s] =>
    destruct (evaluation_frame buf s) as (Hc & Htm & Hev) end.
  rewrite Hc, Htm, Hev. repeat split.
Qed.

(** After the timer has fired no further edit can belong to the run of
    rapid edits, and nothing is evaluated any more. *)
Lemma fired_phase (trace : list (Z * event)) :
  forall (st : page) (t last : Z) (buf : jsstring),
    timer st = None ->
    last + DEBOUNCE_DELAY <= t ->
    chronological t trace -> rapid_edits last buf trace ->
    evaluated (snd (run trace st)) = [] /\ final_buffer buf trace = buf.
Proof.
  induction trace as [|[now e] rest IH]; intros st t last buf Ht Hdue Hchr Hrap.
  - split; reflexivity.
  - destruct Hchr as [Hle Hchr]. rewrite evaluated_cons.
    destruct e as [v|v| |i|i|]; simpl in Hrap.
    + lia.
    + destruct (step_frame now (NameInput v) st I) as (_ & Htm & Hev).
      rewrite Hev. simpl in *. apply IH with now last; try assumption; first [congruence | lia].
    + destruct (step_frame now Save st I) as (_ & Htm & Hev).
      rewrite Hev. simpl in *. apply IH with now last; try assumption; first [congruence | lia].
    + contradiction.
    + destruct (step_frame now (Delete i) st I) as (_ & Htm & Hev).
      rewrite Hev. simpl in *. apply IH with now last; try assumption; first [congruence | lia].
    + destruct (timerExpired_idle now st Ht) as (Htm & _ & Hev).
      change (step now TimerExpired st) with (timerExpired now st).
      rewrite Hev. simpl. apply IH with now last; try assumption. lia.
Qed.

(** While an edit is pending, the pipeline is entered at most once, and
    then with the buffer of the last edit. *)
Lemma pending_phase (trace : list (Z * event)) :
  forall (st : page) (t last : Z) (buf : jsstring),
    timer st = Some (buf, last) -> code st = buf ->
    chronological t trace -> rapid_edits last buf trace ->
    evaluated (snd (run trace st)) = []
    \/ evaluated (snd (run trace st)) = [final_buffer buf trace].
Proof.
  induction trace as [|[now e] rest IH]; intros st t last buf Ht Hc Hchr Hrap.
  - left. reflexivity.
  - destruct Hchr as [Hle Hchr]. rewrite evaluated_cons.
    destruct e as [v|v| |i|i|]; simpl in Hrap.
    + destruct Hrap as (Hgap & Hne & Hrap). simpl.
      apply IH with now now; try assumption;
        unfold setCode; (case_decide; [congruence|]); reflexivity.
    + destruct (step_frame now (NameInput v) st I) as (Hcd & Htm & Hev).
      rewrite Hev. simpl in *. apply IH with now last; try assumption; congruence.
    + destruct (step_frame now Save st I) as (Hcd & Htm & Hev).
      rewrite Hev. simpl in *. apply IH with now last; try assumption; congruence.
    + contradiction.
    + destruct (step_frame now (Delete i) st I) as (Hcd & Htm & Hev).
      rewrite Hev. simpl in *. apply IH with now last; try assumption; congruence.
    + change (step now TimerExpired st) with (timerExpired now st).
      destruct (Z.lt_ge_cases now (last + DEBOUNCE_DELAY)) as [Hearly | Hdue].
      * destruct (timerExpired_early now last buf st Ht Hearly) as (Htm & Hcd & Hev).
        rewrite Hev. simpl. apply IH with now last; try assumption. congruence.
      * destruct (timerExpired_due now last buf st Ht Hdue) as (Htm & Hcd & Hev).
        destruct (fired_phase rest (fst (timerExpired now st)) now last buf
                    Htm Hdue Hchr Hrap) as (Hnone & Hfinal).
        rewrite Hev, Hnone. simpl. rewrite Hfinal. right. reflexivity.
Qed.

(** Liveness: when the timer expires a full delay after the last edit of
    such a run, the final buffer has been evaluated, exactly once. *)
Lemma settled_run_evaluates_final (trace : list (Z * event)) :
  forall (st : page) (t last tend : Z) (buf : jsstring),
    timer st = Some (buf, last) -> code st = buf ->
    chronological t (trace ++ [(tend, TimerExpired)]) ->
    rapid_edits last buf (trace ++ [(tend, TimerExpired)]) ->
    final_time last trace + DEBOUNCE_DELAY <= tend ->
    evaluated (snd (run (trace ++ [(tend, TimerExpired)]) st)) =
      [final_buffer buf (trace ++ [(tend, TimerExpired)])].
Proof.
  induction trace as [|[now e] rest IH];
    intros st t last tend buf Ht Hc Hchr Hrap Hend.
  - simpl app. rewrite evaluated_cons.
    change (step tend TimerExpired st) with (timerExpired tend st).
    destruct (timerExpired_due tend last buf st Ht Hend) as (_ & _ & Hev).
    rewrite Hev. reflexivity.
  - rewrite <- app_comm_cons in *. destruct Hchr as [Hle Hchr].
    rewrite evaluated_cons.
    destruct e as [v|v| |i|i|]; simpl in Hrap.
    + destruct Hrap as (Hgap & Hne & Hrap). simpl.
      apply IH with now now; try assumption;
        unfold setCode; (case_decide; [congruence|]); reflexivity.
    + destruct (step_frame now (NameInput v) st I) as (Hcd & Htm & Hev).
      rewrite Hev. simpl in *. apply IH with now last; try assumption; congruence.
    + destruct (step_frame now Save st I) as (Hcd & Htm & Hev).
      rewrite Hev. simpl in *. apply IH with now last; try assumption; congruence.
    + contradiction.
    + destruct (step_frame now (Delete i) st I) as (Hcd & Htm & Hev).
      rewrite Hev. simpl in *. apply IH with now last; try assumption; congruence.
    + change (step now TimerExpired st) with (timerExpired now st).
      destruct (Z.lt_ge_cases now (last + DEBOUNCE_DELAY)) as [Hearly | Hdue].
      * destruct (timerExpired_early now last buf st Ht Hearly) as (Htm & Hcd & Hev).
        rewrite Hev. simpl in *. apply IH with now last; try assumption. congruence.
      * destruct (timerExpired_due now last buf st Ht Hdue) as (Htm & Hcd & Hev).
        destruct (fired_phase (rest ++ [(tend, TimerExpired)])
                    (fst (timerExpired now st)) now last buf
                    Htm Hdue Hchr Hrap) as (Hnone & Hfinal).
        rewrite Hev, Hnone. simpl. rewrite Hfinal. reflexivity.
Qed.

(** C4: in a run of edits that each change the buffer and each arrive
    less than DEBOUNCE_DELAY after the one before, with the timer free to
    expire at any moment, the pipeline is entered at most once and only
    with the final buffer; no intermediate buffer is transformed or
    evaluated. *)
Theorem rapid_edits_coalesce
    (t1 : Z) (v1 : jsstring) (rest : list (Z * event)) (st : page) :
  v1 <> code st ->
  chronological t1 rest ->
  rapid_edits t1 v1 rest ->
  let passed := evaluated (snd (run ((t1, Edit v1) :: rest) st)) in
  (passed = [] \/ passed = [final_buffer v1 rest])
  /\ (forall source, source ∈ passed -> source = final_buffer v1 rest).
Proof.
  intros Hne Hchr Hrap passed.
  assert (Hp : passed = [] \/ passed = [final_buffer v1 rest]).
  { subst passed. rewrite evaluated_cons. simpl.
    apply pending_phase with t1 t1; try assumption;
      unfold setCode; (case_decide; [congruence|]); reflexivity. }
  split; [exact Hp|].
  intros source Hin. destruct Hp as [Hp | Hp]; rewrite Hp in Hin.
  - apply elem_of_nil in Hin. contradiction.
  - apply list_elem_of_singleton in Hin. exact Hin.
Qed.

End Coalescing.

Lemma rapid_edits_coalesce_witness :
  let trace := [(100, Edit (lit "a")); (300, Edit (lit "ab")); (599, TimerExpired);
                (700, Edit (lit "abc")); (1199, TimerExpired); (1200, TimerExpired)] in
  evaluated (snd (@run demo_host trace (mount 0))) = [lit "abc"].
Proof.
  intros trace.
  assert (Hne : lit "a" <> code (mount 0)) by discriminate.
  assert (Hchr : chronological 100 (tail trace)) by (simpl; lia).
  assert (Hrap : rapid_edits 100 (lit "a") (tail trace)).
  { simpl. unfold DEBOUNCE_DELAY. repeat split; try lia; discriminate. }
  destruct (proj1 (@rapid_edits_coalesce demo_host 100 (lit "a") (tail trace) (mount 0)
                     Hne Hchr Hrap)) as [Hnone | Hone].
  - vm_compute in Hnone. discriminate.
  - exact Hone.
Defined.

(** ** More on the pipeline *)

Lemma Get_nullish (v : value) (k : jsstring) :
  is_nullish v = true -> exists e, Get v k = Throw e.
Proof. destruct v; simpl; try discriminate; eauto. Qed.

Lemma Get_not_nullish (v : value) (k : jsstring) :
  is_nullish v = false -> exists r, Get v k = Return r.
Proof. destruct v; simpl; try discriminate; eauto. Qed.

Section PipelineMore.
Context `{Host}.

Lemma timerExpired_fires (now last : Z) (source : jsstring) (st : page) :
  timer st = Some (source, last) -> last + DEBOUNCE_DELAY <= now ->
  timerExpired now st =
    evaluation source
      {| code := code st; Component := Component st; history := history st;
         componentName := componentName st; timer := None |}.
Proof.
  intros Ht Hdue. unfold timerExpired. rewrite Ht. simpl.
  destruct (Z.leb_spec (last + DEBOUNCE_DELAY) now); [reflexivity | lia].
Qed.

Lemma evaluation_sets_Component (source : jsstring) (c : value) (st : page) :
  evaluateCode source createSandboxEnvironment = Return c ->
  evaluation source st = (setComponent c st, [Evaluated source]).
Proof. intros He. unfold evaluation. rewrite He. reflexivity. Qed.

(** X1: once the source has transpiled, [evaluateCode] returns normally
    whatever the wrapper does: the classified result when the wrapper
    returns, the error producer built from the exception when it throws. *)
Theorem evaluateCode_total_after_transpile
    (source t : jsstring) (env : list (jsstring * value)) :
  transpileCode source = Return t ->
  (exists result,
      func t (Object_keys env) (Object_values env) = Return result
      /\ evaluateCode source env = Return (classify result))
  \/ (exists e,
      func t (Object_keys env) (Object_values env) = Throw e
      /\ evaluateCode source env = Return (VFunction (ArrowEvalError e))).
Proof.
  intros Ht.
  destruct (func t (Object_keys env) (Object_values env)) as [result|e] eqn:Hf.
  - left. exists result. split; [reflexivity|].
    apply evaluateCode_returns with t; assumption.
  - right. exists e. split; [reflexivity|].
    apply (evaluateCode_catches_execution source t env e Ht Hf).
Qed.

(** X2: a script that leaves null or undefined in [module.exports] makes
    the read of the default slot throw; the exception is caught and the
    result is the error producer, not null. *)
Theorem nullish_exports_are_caught
    (source t : jsstring) (env : list (jsstring * value)) (exports : value) :
  transpileCode source = Return t ->
  Function_body t {| bindings := env; require := require_shim env |} = Return exports ->
  is_nullish exports = true ->
  exists e, Get exports (lit "default") = Throw e
            /\ evaluateCode source env = Return (VFunction (ArrowEvalError e)).
Proof.
  intros Ht Hb Hn.
  destruct (Get_nullish exports (lit "default") Hn) as [e He].
  exists e. split; [exact He|].
  apply (evaluateCode_catches_execution source t env e Ht).
  unfold func. rewrite combine_keys_values, Hb. simpl. rewrite He. reflexivity.
Qed.

(** X3: the error producer reads [error.message] only when it is called.
    For a thrown value other than null and undefined the call gives the box
    headed "Evaluation Error:" around that message (the message property
    of a thrown object); for a thrown null or undefined the call itself
    throws. *)
Theorem error_producer_call (error : value) :
  (is_nullish error = false ->
     exists message,
       Get error (lit "message") = Return message
       /\ call (VFunction (ArrowEvalError error)) =
            Return (error_box "Evaluation Error:" message))
  /\ (forall props m,
        error = VObject props -> assoc (lit "message") props = Some m ->
        call (VFunction (ArrowEvalError error)) =
          Return (error_box "Evaluation Error:" m))
  /\ (is_nullish error = true ->
        exists e, call (VFunction (ArrowEvalError error)) = Throw e).
Proof.
  split; [|split].
  - intros Hn. destruct (Get_not_nullish error (lit "message") Hn) as [message Hm].
    exists message. split; [exact Hm|]. simpl. rewrite Hm. reflexivity.
  - intros props m -> Hm. simpl. rewrite Hm. reflexivity.
  - intros Hn. destruct (Get_nullish error (lit "message") Hn) as [e He].
    exists e. simpl. rewrite He. reflexivity.
Qed.

(** X4: a script that exports nothing leaves the empty exports container
    as the result; it is no element, so it becomes the producer as it is,
    and calling it fails. *)
Theorem empty_exports_are_not_callable
    (source t : jsstring) (env : list (jsstring * value)) :
  transpileCode source = Return t ->
  Function_body t {| bindings := env; require := require_shim env |} = Return (VObject []) ->
  evaluateCode source env = Return (VObject [])
  /\ exists e, call (VObject []) = Throw e.
Proof.
  intros Ht Hb. split; [|simpl; eauto].
  change (VObject []) with (classify (VObject [])) at 1.
  apply evaluateCode_returns with t; [exact Ht|].
  unfold func. rewrite combine_keys_values, Hb. reflexivity.
Qed.



End PipelineMore.

(** *** The same on the two hosts *)

Lemma evaluateCode_total_after_transpile_witness :
  let env := @createSandboxEnvironment demo_host in
  @evaluateCode demo_host (lit "undefinedName;") env =
    Return (VFunction (ArrowEvalError (ReferenceError (lit "undefinedName")))).
Proof.
  intros env.
  destruct (@evaluateCode_total_after_transpile demo_host
              (lit "undefinedName;") (lit "undefinedName;") env eq_refl)
    as [(result & Hf & _) | (e & Hf & He)].
  - vm_compute in Hf. discriminate.
  - vm_compute in Hf. injection Hf as <-. exact He.
Defined.

Lemma nullish_exports_are_caught_witness :
  let env := @createSandboxEnvironment edge_host in
  exists e, @evaluateCode edge_host (lit "module.exports = null;") env =
              Return (VFunction (ArrowEvalError e)).
Proof.
  intros env.
  destruct (@nullish_exports_are_caught edge_host
              (lit "module.exports = null;") (lit "module.exports = null;") env VNull
              eq_refl eq_refl eq_refl) as (e & _ & He).
  exists e. exact He.
Defined.

Lemma error_producer_call_witness :
  @call demo_host (VFunction (ArrowEvalError (ReferenceError (lit "x")))) =
    Return (error_box "Evaluation Error:" (VString (lit "x is not defined")))
  /\ exists e, @call demo_host (VFunction (ArrowEvalError VNull)) = Throw e.
Proof.
  split.
  - apply (proj1 (proj2 (@error_producer_call demo_host (ReferenceError (lit "x"))))
             _ (VString (lit "x is not defined")) eq_refl eq_refl).
  - apply (proj2 (proj2 (@error_producer_call demo_host VNull)) eq_refl).
Defined.

Lemma empty_exports_are_not_callable_witness :
  @evaluateCode demo_host [] (@createSandboxEnvironment demo_host) = Return (VObject []).
Proof.
  apply (proj1 (@empty_exports_are_not_callable demo_host [] []
                  (@createSandboxEnvironment demo_host) eq_refl eq_refl)).
Defined.



(** ** Object spread and the sandbox environment *)

Section Objects.
Context {K V : Type} `{EqDecision K}.

Lemma assoc_None (k : K) (o : list (K * V)) :
  assoc k o = None <-> k ∉ Object_keys o.
Proof.
  induction o as [|[k' v'] o IH]; simpl.
  - split; [intros _; apply not_elem_of_nil | reflexivity].
  - rewrite not_elem_of_cons. destruct (decide (k = k')) as [Hk|Hk].
    + split; [discriminate | intros [Hne _]; contradiction].
    + rewrite IH. tauto.
Qed.

Lemma assoc_is_Some (k : K) (o : list (K * V)) :
  is_Some (assoc k o) <-> k ∈ Object_keys o.
Proof.
  rewrite <- not_eq_None_Some, assoc_None.
  split; [apply dec_stable | auto].
Qed.

Lemma assoc_obj_set (k k' : K) (v : V) (o : list (K * V)) :
  assoc k' (obj_set k v o) = if decide (k' = k) then Some v else assoc k' o.
Proof.
  induction o as [|[k0 v0] o IH]; simpl.
  - reflexivity.
  - destruct (decide (k = k0)) as [->|Hne]; simpl.
    + repeat case_decide; congruence.
    + rewrite IH. repeat case_decide; congruence.
Qed.

Lemma keys_obj_set (k : K) (v : V) (o : list (K * V)) :
  Object_keys (obj_set k v o) =
    if decide (k ∈ Object_keys o) then Object_keys o else Object_keys o ++ [k].
Proof.
  induction o as [|[k0 v0] o IH]; simpl.
  - destruct (decide (k ∈ [])) as [Hk|Hk]; [|reflexivity].
    apply elem_of_nil in Hk. contradiction.
  - destruct (decide (k = k0)) as [->|Hne]; simpl.
    + destruct (decide (k0 ∈ k0 :: Object_keys o)) as [Hk|Hk]; [reflexivity|].
      exfalso. apply Hk. left.
    + rewrite IH.
      destruct (decide (k ∈ Object_keys o)) as [Hin|Hnin];
        destruct (decide (k ∈ k0 :: Object_keys o)) as [Hk|Hk]; try reflexivity.
      * exfalso. apply Hk. right. exact Hin.
      * apply elem_of_cons in Hk as [Hk|Hk]; contradiction.
Qed.

Lemma keys_spread_prefix (src base : list (K * V)) :
  exists more, Object_keys (spread base src) = Object_keys base ++ more.
Proof.
  unfold spread. revert base.
  induction src as [|[k v] src IH]; simpl; intros base.
  - exists []. rewrite app_nil_r. reflexivity.
  - destruct (IH (obj_set k v base)) as [more Hm]. rewrite Hm, keys_obj_set.
    case_decide; [eauto|]. rewrite <- app_assoc. eauto.
Qed.

Lemma NoDup_keys_spread (src base : list (K * V)) :
  NoDup (Object_keys base) -> NoDup (Object_keys (spread base src)).
Proof.
  unfold spread. revert base.
  induction src as [|[k v] src IH]; simpl; intros base Hnd; [exact Hnd|].
  apply IH. rewrite keys_obj_set.
  destruct (decide (k ∈ Object_keys base)) as [Hk|Hk]; [exact Hnd|].
  apply NoDup_app. split; [exact Hnd|]. split.
  - intros x Hx Hx'. apply list_elem_of_singleton in Hx'. subst x. contradiction.
  - apply NoDup_singleton.
Qed.

(** With distinct keys in [src], a spread property comes from [src] when
    [src] has it and from [base] otherwise. *)
Lemma assoc_spread (k : K) (src base : list (K * V)) :
  NoDup (Object_keys src) ->
  assoc k (spread base src) =
    match assoc k src with
    | Some v => Some v
    | None => assoc k base
    end.
Proof.
  unfold spread. revert base.
  induction src as [|[k0 v0] src IH]; simpl; intros base Hnd; [reflexivity|].
  apply NoDup_cons in Hnd as [Hk0 Hnd].
  rewrite IH by exact Hnd. rewrite assoc_obj_set.
  destruct (decide (k = k0)) as [->|Hne].
  - apply assoc_None in Hk0. rewrite Hk0. reflexivity.
  - reflexivity.
Qed.

End Objects.

Section Environment.
Context `{Host}.

(** X7: the names given to the script.  The parameter names are distinct
    and begin with React and ReactDOM; a name is a parameter exactly when
    it is one of these two or an export of React; every export of React is
    bound to React's own value, also an export called React or ReactDOM,
    which then takes the place of the library object; without such an
    export the two names stand for the two libraries. *)
Theorem environment_bindings_in_general :
  NoDup (Object_keys React_exports) ->
  let env := createSandboxEnvironment in
  NoDup (Object_keys env)
  /\ (exists rest, Object_keys env = lit "React" :: lit "ReactDOM" :: rest)
  /\ (forall k, k ∈ Object_keys env <->
        k = lit "React" \/ k = lit "ReactDOM" \/ k ∈ Object_keys React_exports)
  /\ (forall k v, assoc k React_exports = Some v -> assoc k env = Some v)
  /\ (lit "React" ∉ Object_keys React_exports -> assoc (lit "React") env = Some React)
  /\ (lit "ReactDOM" ∉ Object_keys React_exports ->
        assoc (lit "ReactDOM") env = Some ReactDOM).
Proof.
  intros Hnd env. subst env. unfold createSandboxEnvironment.
  set (base := [(lit "React", React); (lit "ReactDOM", ReactDOM)]).
  assert (Hbase : NoDup (Object_keys base)).
  { apply NoDup_ListNoDup. repeat constructor; simpl; intuition discriminate. }
  split; [apply NoDup_keys_spread; exact Hbase|].
  split; [apply (keys_spread_prefix React_exports base)|].
  split; [|split; [|split]].
  - intros k. rewrite <- !assoc_is_Some, assoc_spread by exact Hnd.
    destruct (assoc k React_exports) as [v|] eqn:Hk.
    + split; [intros _; right; right; eauto | intros _; eauto].
    + rewrite (assoc_is_Some k base). simpl.
      rewrite !elem_of_cons, elem_of_nil.
      split; [intros [?|[?|[]]]; auto | intros [?|[?|[v Hv]]]; auto; discriminate].
  - intros k v Hk. rewrite assoc_spread by exact Hnd. rewrite Hk. reflexivity.
  - intros HR. apply assoc_None in HR.
    rewrite assoc_spread by exact Hnd. rewrite HR. reflexivity.
  - intros HD. apply assoc_None in HD.
    rewrite assoc_spread by exact Hnd. rewrite HD. reflexivity.
Qed.

End Environment.

Lemma environment_bindings_in_general_witness :
  let env := @createSandboxEnvironment edge_host in
  Object_keys env = [lit "React"; lit "ReactDOM"; lit "createElement"]
  /\ assoc (lit "React") env = Some (VString (lit "inner")).
Proof.
  intros env. split; [reflexivity|].
  assert (Hnd : NoDup (Object_keys (@React_exports edge_host))).
  { apply NoDup_ListNoDup. repeat constructor; simpl; intuition discriminate. }
  destruct (@environment_bindings_in_general edge_host Hnd) as (_ & _ & _ & Hexp & _).
  apply Hexp. reflexivity.
Defined.

(** ** More on the preview *)

Lemma assoc_Some_elem {K V} `{EqDecision K} (k : K) (v : V) (o : list (K * V)) :
  assoc k o = Some v -> (k, v) ∈ o.
Proof.
  induction o as [|[k' v'] o IH]; simpl; [discriminate|].
  destruct (decide (k = k')) as [->|Hne].
  - intros [= ->]. left.
  - intros Hk. right. apply IH. exact Hk.
Qed.

Section PreviewMore.
Context `{Host}.

Lemma preview_step_mobileSize (e : preview_event) (pv : preview) :
  mobileSize (preview_step e pv) =
    match e with
    | SelectDevice v => assoc v MOBILE_SIZES
    | _ => mobileSize pv
    end.
Proof.
  destruct e as [|v|v|c]; simpl; try reflexivity.
  - destruct (mounted pv); [|reflexivity].
    destruct (setState_payload v); [apply commit_frame | reflexivity].
  - apply commit_frame.
Qed.

Lemma preview_step_catalog_size (e : preview_event) (pv : preview) :
  catalog_size pv -> catalog_size (preview_step e pv).
Proof.
  intros Hpv. unfold catalog_size. rewrite preview_step_mobileSize.
  destruct e as [|v|v|c]; try exact Hpv.
  destruct (assoc v MOBILE_SIZES) as [d|] eqn:Hv; [|left; reflexivity].
  right. exists v, d. split; [apply assoc_Some_elem; exact Hv | reflexivity].
Qed.

Lemma preview_run_catalog_size (es : list preview_event) (pv : preview) :
  catalog_size pv -> catalog_size (preview_run es pv).
Proof.
  unfold preview_run. revert pv.
  induction es as [|e es IH]; simpl; intros pv Hpv; [exact Hpv|].
  apply IH, preview_step_catalog_size, Hpv.
Qed.


(** X9: whatever is toggled, selected among the offered values, reported
    or rendered, the stored size is either unset, with no active preset and
    the default style, or the size of exactly one preset, whose height
    replaces the default height and whose width is added. *)
Theorem viewport_is_default_or_one_preset (es : list preview_event) :
  forallb offered es = true ->
  let pv := preview_run es initial_preview in
  (mobileSize pv = None
   /\ active_presets pv = []
   /\ output_style pv =
        [("height", VString (lit "400px")); ("overflowY", VString (lit "auto"))])
  \/ (exists name d,
        (name, d) ∈ MOBILE_SIZES
        /\ mobileSize pv = Some d
        /\ active_presets pv = [name]
        /\ output_style pv =
             [("height", VNumber (height d)); ("overflowY", VString (lit "auto"));
              ("width", VNumber (width d))]).
Proof.
  intros _ pv.
  assert (Hpv : catalog_size pv).
  { apply preview_run_catalog_size. left. reflexivity. }
  destruct Hpv as [Hnone | (name & d & Hin & Hsome)].
  - left. unfold active_presets, output_style. rewrite Hnone.
    repeat split.
  - right. exists name, d. split; [exact Hin|]. split; [exact Hsome|].
    unfold active_presets, output_style. rewrite Hsome.
    destruct (catalog_entries name d Hin) as [[-> ->] | [[-> ->] | [-> ->]]];
      split; reflexivity.
Qed.

End PreviewMore.


Lemma viewport_is_default_or_one_preset_witness :
  let pv := @preview_run demo_host [SelectDevice (lit "iPad"); ToggleFullscreen;
                                    SelectDevice (lit "iPhone SE")] initial_preview in
  active_presets pv = [lit "iPhone SE"].
Proof.
  intros pv.
  destruct (@viewport_is_default_or_one_preset demo_host
              [SelectDevice (lit "iPad"); ToggleFullscreen; SelectDevice (lit "iPhone SE")]
              eq_refl) as [(Hnone & _) | (name & d & _ & Hsome & Hact & _)].
  - vm_compute in Hnone. discriminate.
  - reflexivity.
Defined.

(** ** The mount point *)

Lemma Root_step_consistent (e : Root.event) (st : Root.state) :
  Root.consistent st ->
  exists st', Root.step e st = Return st' /\ Root.consistent st'.
Proof.
  intros Hst. destruct e as [| | | |c]; simpl.
  - eexists. split; [reflexivity|]. exact Hst.
  - eexists. split; [reflexivity|]. exact Hst.
  - destruct (Root.container st); simpl; [|eauto].
    destruct (Root.rootRef st) as [r|] eqn:Href; simpl.
    + eauto.
    + eexists. split; [reflexivity|].
      intros i. simpl. split.
      * intros (rt & Hi & Hlive).
        destruct (decide (i < length (Root.roots st))%nat) as [Hlt|Hge].
        -- rewrite lookup_app_l in Hi by exact Hlt.
           assert (Hsome : Root.rootRef st = Some i) by (apply Hst; eauto).
           congruence.
        -- destruct (decide (i = length (Root.roots st))) as [->|Hne]; [reflexivity|].
           rewrite lookup_ge_None_2 in Hi; [discriminate|].
           rewrite length_app. simpl. lia.
      * intros [= <-].
        exists {| Root.unmounted := false; Root.rendered := None |}.
        split; [|reflexivity].
        rewrite lookup_app_r by lia. rewrite Nat.sub_diag. reflexivity.
  - destruct (Root.rootRef st) as [r|] eqn:Href; [|eauto].
    eexists. split; [reflexivity|].
    intros i. simpl. unfold Root.unmount. split; [|discriminate].
    intros (rt & Hi & Hlive).
    destruct (decide (i = r)) as [->|Hne].
    + apply list_lookup_insert_Some in Hi as [(_ & <- & _) | (Hrr & _)];
        [discriminate | contradiction].
    + rewrite list_lookup_insert_ne in Hi by congruence.
      assert (Hsome : Root.rootRef st = Some i) by (apply Hst; eauto).
      congruence.
  - destruct (Root.rootRef st) as [r|] eqn:Href; [|eauto].
    destruct (proj2 (Hst r) Href) as (rt & Hr & Hlive).
    unfold Root.render. rewrite Hr, Hlive. simpl.
    eexists. split; [reflexivity|].
    intros i. simpl. split.
    + intros (rt' & Hi & Hlive').
      destruct (decide (i = r)) as [->|Hne]; [reflexivity|].
      rewrite list_lookup_insert_ne in Hi by congruence.
      rewrite <- Href. apply Hst. eauto.
    + intros [= <-].
      exists {| Root.unmounted := false; Root.rendered := Some c |}.
      split; [|reflexivity].
      apply list_lookup_insert_eq. eapply lookup_lt_Some. exact Hr.
Qed.

Lemma Root_initial_consistent : Root.consistent Root.initial.
Proof.
  intros i. simpl. split; [|discriminate].
  intros (rt & Hi & _). rewrite lookup_nil in Hi. discriminate.
Qed.

Lemma Root_run_consistent (es : list Root.event) (st : Root.state) :
  Root.consistent st ->
  exists st', Root.run es st = Return st' /\ Root.consistent st'.
Proof.
  revert st. induction es as [|e es IH]; simpl; intros st Hst; [eauto|].
  destruct (Root_step_consistent e st Hst) as (st1 & Hstep & Hst1).
  rewrite Hstep. simpl. apply IH. exact Hst1.
Qed.

(** X10: in whatever order the effects and their cleanup run, no call of
    [render] reaches an unmounted root (no step throws), the root held in
    [rootRef] is a live one and every other root ever created has been
    unmounted; and a render with a root in place leaves that root showing
    the given producer. *)
Theorem root_is_never_used_after_unmount (es : list Root.event) :
  exists st,
    Root.run es Root.initial = Return st
    /\ Root.consistent st
    /\ (forall r c, Root.rootRef st = Some r ->
          exists st', Root.step (Root.Render c) st = Return st'
                      /\ Root.rootRef st' = Some r
                      /\ Root.roots st' !! r =
                           Some {| Root.unmounted := false; Root.rendered := Some c |}).
Proof.
  destruct (Root_run_consistent es Root.initial Root_initial_consistent)
    as (st & Hrun & Hst).
  exists st. split; [exact Hrun|]. split; [exact Hst|].
  intros r c Href.
  destruct (proj2 (Hst r) Href) as (rt & Hr & Hlive).
  simpl. rewrite Href. unfold Root.render. rewrite Hr, Hlive. simpl.
  eexists. split; [reflexivity|]. split; [reflexivity|]. simpl.
  apply list_lookup_insert_eq. eapply lookup_lt_Some. exact Hr.
Qed.

(** The effects as StrictMode runs them on mount: set up, render, clean up,
    set up and render again.  The first root is unmounted, the second one
    shows the producer. *)
Example strict_mode_mount :
  let c := VFunction ArrowNull in
  Root.run [Root.Attach; Root.Setup; Root.Render c; Root.Cleanup;
            Root.Setup; Root.Render c] Root.initial =
  Return {| Root.container := true; Root.rootRef := Some 1%nat;
            Root.roots := [ {| Root.unmounted := true; Root.rendered := None |};
                            {| Root.unmounted := false; Root.rendered := Some c |} ] |}.
Proof. reflexivity. Qed.

(** ** More on the history *)

Lemma filter_from_app {A} (p : A -> nat -> bool) (k : nat) (l1 l2 : list A) :
  filter_from p k (l1 ++ l2) =
    filter_from p k l1 ++ filter_from p (k + length l1)%nat l2.
Proof.
  revert k. induction l1 as [|x l1 IH]; intros k; simpl.
  - rewrite Nat.add_0_r. reflexivity.
  - rewrite IH. replace (S k + length l1)%nat with (k + S (length l1))%nat by lia.
    destruct (p x k); reflexivity.
Qed.

Lemma onDelete_snoc (i : Z) (H : list Item.t) (x : Item.t) :
  onDelete i (H ++ [x]) =
    onDelete i H ++ (if decide (i = Z.of_nat (length H)) then [] else [x]).
Proof.
  unfold onDelete, Array_filter. rewrite filter_from_app. simpl.
  destruct (Z.eqb_spec (Z.of_nat (length H)) i) as [He|Hne]; simpl;
    case_decide; try congruence; reflexivity.
Qed.

Lemma onDelete_past_end (i : Z) (H : list Item.t) :
  Z.of_nat (length H) <= i -> onDelete i H = H.
Proof.
  intros Hi. unfold onDelete, Array_filter. rewrite filter_from_delete.
  case_decide; [lia | reflexivity].
Qed.

(** X11: saving and then deleting the new last position gives the old
    history back, and deleting an older position commutes with the save:
    the saved entry stays last. *)
Theorem save_then_delete (H : list Item.t) (n c : jsstring) :
  onDelete (Z.of_nat (length H)) (onSave n c H) = H
  /\ (forall i, (i < length H)%nat ->
        onDelete (Z.of_nat i) (onSave n c H) = onSave n c (onDelete (Z.of_nat i) H)).
Proof.
  unfold onSave. split.
  - rewrite onDelete_snoc. case_decide; [|congruence].
    rewrite app_nil_r. apply onDelete_past_end. lia.
  - intros i Hi. rewrite onDelete_snoc. case_decide; [lia | reflexivity].
Qed.

Lemma save_then_delete_witness :
  let a := {| Item.name := lit "A"; Item.code := lit "a" |} in
  let b := {| Item.name := lit "B"; Item.code := lit "b" |} in
  onDelete 0 (onSave (lit "C") (lit "c") [a; b]) =
    [b; {| Item.name := lit "C"; Item.code := lit "c" |}].
Proof.
  intros a b.
  apply (proj2 (save_then_delete [a; b] (lit "C") (lit "c")) 0%nat).
  simpl. lia.
Defined.

(** X12: pressing Delete twice on the row at position [i] removes two
    entries, the one at [i] and the one that was at [i + 1]: the remaining
    list is two shorter, unchanged before [i], and shifted by two from [i]
    on. *)
Theorem delete_twice_removes_two (H : list Item.t) (i : nat) :
  (S i < length H)%nat ->
  let H' := onDelete (Z.of_nat i) (onDelete (Z.of_nat i) H) in
  length H' = (length H - 2)%nat
  /\ (forall j, (j < i)%nat -> H' !! j = H !! j)
  /\ (forall j, (i <= j)%nat -> H' !! j = H !! (j + 2)%nat).
Proof.
  intros Hi H'. subst H'.
  assert (Hlen : length (delete i H) = (length H - 1)%nat).
  { rewrite length_delete; [lia|]. apply lookup_lt_is_Some_2. lia. }
  rewrite (onDelete_in_range i H) by lia.
  rewrite (onDelete_in_range i (delete i H)) by lia.
  split; [|split].
  - rewrite length_delete; [lia|]. apply lookup_lt_is_Some_2. lia.
  - intros j Hj. rewrite !list_lookup_delete_lt by exact Hj. reflexivity.
  - intros j Hj. rewrite !list_lookup_delete_ge by lia. f_equal. lia.
Qed.

Lemma delete_twice_removes_two_witness :
  let a := {| Item.name := lit "A"; Item.code := lit "a" |} in
  let b := {| Item.name := lit "B"; Item.code := lit "b" |} in
  let c := {| Item.name := lit "C"; Item.code := lit "c" |} in
  onDelete 0 (onDelete 0 [a; b; c]) = [c]
  /\ length (onDelete 0 (onDelete 0 [a; b; c])) = 1%nat.
Proof.
  intros a b c. split; [reflexivity|].
  assert (Hi : (1 < length [a; b; c])%nat) by (simpl; lia).
  exact (proj1 (delete_twice_removes_two [a; b; c] 0 Hi)).
Defined.

(** X13: after a successful save the name input is empty, so a second
    press of Save appends nothing and only alerts: one entry per save. *)
Theorem second_save_only_alerts (st : page) :
  trim (componentName st) <> [] ->
  let st1 := fst (handleSave st) in
  handleSave st1 = (st1, [Alert (lit "Please enter a component name before saving.")])
  /\ length (history (fst (handleSave st1))) = S (length (history st)).
Proof.
  intros Hn st1. subst st1.
  rewrite (handleSave_named st Hn). simpl fst.
  rewrite handleSave_unnamed by reflexivity.
  split; [reflexivity|]. simpl. rewrite length_app. simpl. lia.
Qed.

Lemma second_save_only_alerts_witness :
  let st := {| code := lit "x"; Component := VNull; history := [];
               componentName := lit "Foo"; timer := None |} in
  length (history (fst (handleSave (fst (handleSave st))))) = 1%nat.
Proof.
  intros st.
  assert (Hn : trim (componentName st) <> []) by discriminate.
  exact (proj2 (second_save_only_alerts st Hn)).
Defined.

(** X14: the entry keeps the name as typed, surrounding white space and
    all (the trimmed name only decides whether to save), and names need not
    be unique: typing and saving the same name twice gives two entries. *)
Theorem saved_name_is_as_typed (st : page) (n : jsstring) :
  trim n <> [] ->
  let st1 := fst (handleSave (setComponentName n st)) in
  let st2 := fst (handleSave (setComponentName n st1)) in
  history st1 = history st ++ [{| Item.name := n; Item.code := code st |}]
  /\ history st2 =
       history st ++ [{| Item.name := n; Item.code := code st |};
                      {| Item.name := n; Item.code := code st |}].
Proof.
  intros Hn st1 st2. subst st2 st1.
  rewrite (handleSave_named (setComponentName n st)) by exact Hn. simpl.
  split; [reflexivity|].
  match goal with |- context [handleSave ?s] =>
    rewrite (handleSave_named s) by exact Hn end.
  simpl. rewrite <- app_assoc. reflexivity.
Qed.

Lemma saved_name_is_as_typed_witness :
  let st := {| code := lit "x"; Component := VNull; history := [];
               componentName := []; timer := None |} in
  history (fst (handleSave (setComponentName (lit " Foo ") st))) =
    [{| Item.name := lit " Foo "; Item.code := lit "x" |}].
Proof.
  intros st.
  assert (Hn : trim (lit " Foo ") <> []) by (vm_compute; discriminate).
  exact (proj1 (saved_name_is_as_typed st (lit " Foo ") Hn)).
Defined.

(** ** Session invariants *)

Section Session.
Context `{Host}.

Lemma setCode_pending (now : Z) (v : jsstring) (st : page) :
  pending_is_buffer st -> pending_is_buffer (setCode now v st).
Proof.
  intros Hst. unfold setCode. case_decide; [exact Hst|].
  unfold pending_is_buffer. reflexivity.
Qed.

Lemma step_pending (now : Z) (e : event) (st : page) :
  pending_is_buffer st ->
  pending_is_buffer (fst (step now e st))
  /\ (forall s, s ∈ evaluated (snd (step now e st)) ->
        e = TimerExpired /\ s = code st).
Proof.
  intros Hst.
  destruct e as [v|v| |i|i|]; simpl.
  - split; [apply setCode_pending; exact Hst | intros s Hs; inversion Hs].
  - split; [exact Hst | intros s Hs; inversion Hs].
  - unfold handleSave. destruct (ToBoolean _); simpl;
      (split; [exact Hst | intros s Hs; inversion Hs]).
  - destruct (history st !! i); simpl;
      (split; [try apply setCode_pending; exact Hst | intros s Hs; inversion Hs]).
  - split; [exact Hst | intros s Hs; inversion Hs].
  - unfold timerExpired, pending_is_buffer in *.
    destruct (timer st) as [[arg last]|]; simpl.
    + destruct (last + DEBOUNCE_DELAY <=? now); simpl.
      * match goal with |- context [evaluation arg ?s] =>
          destruct (evaluation_frame arg s) as (Hc & Htm & Hev) end.
        rewrite Htm, Hev. simpl. split; [exact I|].
        intros s Hs. apply list_elem_of_singleton in Hs. subst s. auto.
      * split; [exact Hst | intros s Hs; inversion Hs].
    + split; [exact I | intros s Hs; inversion Hs].
Qed.

Lemma run_pending (trace : list (Z * event)) (st : page) :
  pending_is_buffer st -> pending_is_buffer (fst (run trace st)).
Proof.
  revert st. induction trace as [|[now e] rest IH]; intros st Hst; [exact Hst|].
  rewrite run_cons. simpl fst. apply IH, step_pending, Hst.
Qed.

(** X15: in every state reached from the first render, the argument the
    debounced function holds is the current buffer; so the pipeline is
    entered only when the timer expires, and then with the buffer as it
    stands at that moment, never with an older text. *)
Theorem pipeline_gets_current_buffer
    (t0 : Z) (trace : list (Z * event)) (now : Z) (e : event) :
  let st := fst (run trace (mount t0)) in
  pending_is_buffer st
  /\ (forall s, s ∈ evaluated (snd (step now e st)) ->
        e = TimerExpired /\ s = code st).
Proof.
  intros st.
  assert (Hst : pending_is_buffer st).
  { apply run_pending. unfold pending_is_buffer. reflexivity. }
  split; [exact Hst|]. apply (proj2 (step_pending now e st Hst)).
Qed.

Lemma run_preserves {A} (f : page -> A) (writes : event -> bool) :
  (forall now e st, writes e = false -> f (fst (step now e st)) = f st) ->
  forall trace st,
    forallb (fun te => negb (writes (snd te))) trace = true ->
    f (fst (run trace st)) = f st.
Proof.
  intros Hstep trace. induction trace as [|[now e] rest IH]; intros st Hall;
    [reflexivity|].
  simpl in Hall. apply andb_true_iff in Hall as [He Hall].
  rewrite run_cons. simpl fst. rewrite IH by exact Hall.
  apply Hstep. apply negb_true_iff. exact He.
Qed.

Lemma run_quiet (trace : list (Z * event)) (st : page) :
  forallb (fun te => negb (is_TimerExpired (snd te))) trace = true ->
  evaluated (snd (run trace st)) = [].
Proof.
  revert st. induction trace as [|[now e] rest IH]; intros st Hall; [reflexivity|].
  simpl in Hall. apply andb_true_iff in Hall as [He Hall].
  rewrite evaluated_cons, IH by exact Hall. rewrite app_nil_r.
  destruct e as [v|v| |i|i|]; try discriminate; simpl; try reflexivity.
  - unfold handleSave. destruct (ToBoolean _); reflexivity.
  - destruct (history st !! i); reflexivity.
Qed.

Lemma timerExpired_frame (now : Z) (st : page) :
  code (fst (timerExpired now st)) = code st
  /\ history (fst (timerExpired now st)) = history st
  /\ componentName (fst (timerExpired now st)) = componentName st.
Proof.
  unfold timerExpired. destruct (Debounce.expire _ _ _) as [t [source|]]; simpl.
  - unfold evaluation. destruct (evaluateCode _ _); simpl; repeat split.
  - repeat split.
Qed.

(** X16: what each kind of event leaves alone.  Without a timer expiry the
    producer stays and nothing is evaluated; without Save and Delete the
    history stays; without an edit or a load the buffer stays; without name
    input and Save the name input stays. *)
Theorem events_touch_only_their_state (trace : list (Z * event)) (st : page) :
  (forallb (fun te => negb (is_TimerExpired (snd te))) trace = true ->
     Component (fst (run trace st)) = Component st
     /\ evaluated (snd (run trace st)) = [])
  /\ (forallb (fun te => negb (writes_history (snd te))) trace = true ->
        history (fst (run trace st)) = history st)
  /\ (forallb (fun te => negb (writes_code (snd te))) trace = true ->
        code (fst (run trace st)) = code st)
  /\ (forallb (fun te => negb (writes_name (snd te))) trace = true ->
        componentName (fst (run trace st)) = componentName st).
Proof.
  split; [|split; [|split]].
  - intros Hall. split; [|apply run_quiet; exact Hall].
    apply (run_preserves Component is_TimerExpired); [|exact Hall].
    intros now e s He. destruct e as [v|v| |i|i|]; try discriminate; simpl;
      try reflexivity.
    + unfold setCode. case_decide; reflexivity.
    + unfold handleSave. destruct (ToBoolean _); reflexivity.
    + destruct (history s !! i); [|reflexivity].
      unfold setCode. case_decide; reflexivity.
  - apply (run_preserves history writes_history).
    intros now e s He. destruct e as [v|v| |i|i|]; try discriminate; simpl;
      try reflexivity.
    + unfold setCode. case_decide; reflexivity.
    + destruct (history s !! i); [|reflexivity].
      unfold setCode. case_decide; reflexivity.
    + apply (timerExpired_frame now s).
  - apply (run_preserves code writes_code).
    intros now e s He. destruct e as [v|v| |i|i|]; try discriminate; simpl;
      try reflexivity.
    + unfold handleSave. destruct (ToBoolean _); reflexivity.
    + apply (timerExpired_frame now s).
  - apply (run_preserves componentName writes_name).
    intros now e s He. destruct e as [v|v| |i|i|]; try discriminate; simpl;
      try reflexivity.
    + unfold setCode. case_decide; reflexivity.
    + destruct (history s !! i); [|reflexivity].
      unfold setCode. case_decide; reflexivity.
    + apply (timerExpired_frame now s).
Qed.

End Session.

Section SessionMore.
Context `{Host}.

Lemma step_history_grows (now : Z) (e : event) (st : page) :
  is_Delete e = false ->
  exists more, history (fst (step now e st)) = history st ++ more.
Proof.
  intros He. destruct e as [v|v| |i|i|]; try discriminate; simpl.
  - exists []. rewrite app_nil_r. unfold setCode. case_decide; reflexivity.
  - exists []. rewrite app_nil_r. reflexivity.
  - unfold handleSave. destruct (ToBoolean _); simpl.
    + unfold onSave. eauto.
    + exists []. rewrite app_nil_r. reflexivity.
  - exists []. rewrite app_nil_r. destruct (history st !! i); [|reflexivity].
    unfold setCode. case_decide; reflexivity.
  - exists []. rewrite app_nil_r. apply (timerExpired_frame now st).
Qed.

Lemma run_history_grows (trace : list (Z * event)) (st : page) :
  forallb (fun te => negb (is_Delete (snd te))) trace = true ->
  exists more, history (fst (run trace st)) = history st ++ more.
Proof.
  revert st. induction trace as [|[now e] rest IH]; intros st Hall.
  - exists []. rewrite app_nil_r. reflexivity.
  - simpl in Hall. apply andb_true_iff in Hall as [He Hall].
    apply negb_true_iff in He.
    rewrite run_cons. simpl fst.
    destruct (IH (fst (step now e st)) Hall) as [more2 H2].
    destruct (step_history_grows now e st He) as [more1 H1].
    exists (more1 ++ more2). rewrite H2, H1, app_assoc. reflexivity.
Qed.

(** X17: an entry saved from buffer [X] can be loaded back.  As long as no
    entry is deleted, whatever else happens after the save, the entry stays
    at the position it was saved at, and its Load button makes [X] the
    buffer again; the restored buffer is handed to the debounced function
    when it differs from the buffer being replaced, and nothing at all
    changes when it does not. *)
Theorem saved_entry_loads_back
    (st : page) (t1 t3 : Z) (mid : list (Z * event)) :
  trim (componentName st) <> [] ->
  forallb (fun te => negb (is_Delete (snd te))) mid = true ->
  let st1 := fst (run ((t1, Save) :: mid) st) in
  let st2 := fst (step t3 (Load (length (history st))) st1) in
  history st1 !! length (history st) =
    Some {| Item.name := componentName st; Item.code := code st |}
  /\ code st2 = code st
  /\ (code st1 <> code st -> timer st2 = Some (code st, t3))
  /\ (code st1 = code st -> st2 = st1).
Proof.
  intros Hn Hmid st1 st2.
  assert (Hentry : history st1 !! length (history st) =
                     Some {| Item.name := componentName st; Item.code := code st |}).
  { subst st1. rewrite run_cons. simpl fst.
    change (step t1 Save st) with (handleSave st).
    rewrite (handleSave_named st Hn). simpl fst.
    match goal with |- context [run mid ?s] =>
      destruct (run_history_grows mid s Hmid) as [more Hmore] end.
    rewrite Hmore. simpl.
    rewrite lookup_app_l by (rewrite length_app; simpl; lia).
    rewrite lookup_app_r by lia. rewrite Nat.sub_diag. reflexivity. }
  split; [exact Hentry|].
  subst st2. simpl. rewrite Hentry. simpl. unfold setCode.
  case_decide as Hc; simpl.
  - split; [congruence|]. split; [congruence | reflexivity].
  - split; [reflexivity|]. split; [reflexivity | congruence].
Qed.

(** X18: the first render hands the empty buffer to the debounced
    function.  Before the delay has passed nothing happens; at the first
    expiry after it the empty buffer is evaluated, and when the empty
    script transpiles and exports nothing, the producer becomes the empty
    exports container, which a preview without a stored error fails to
    render. *)
Theorem startup_evaluates_the_empty_buffer
    (t0 now : Z) (t : jsstring) (pv : preview) :
  let env := createSandboxEnvironment in
  transpileCode [] = Return t ->
  Function_body t {| bindings := env; require := require_shim env |} = Return (VObject []) ->
  t0 + DEBOUNCE_DELAY <= now ->
  ToBoolean (error pv) = false ->
  (forall early, early < t0 + DEBOUNCE_DELAY ->
     timerExpired early (mount t0) = (mount t0, []))
  /\ evaluated (snd (timerExpired now (mount t0))) = [[]]
  /\ Component (fst (timerExpired now (mount t0))) = VObject []
  /\ exists e, ErrorBoundary_view (show (fst (timerExpired now (mount t0))) pv) = Throw e.
Proof.
  intros env Ht Hb Hdue Herr. split.
  - intros early Hearly. unfold timerExpired. simpl.
    destruct (Z.leb_spec (t0 + DEBOUNCE_DELAY) early); [lia | reflexivity].
  - rewrite (timerExpired_fires now t0 [] (mount t0) eq_refl Hdue).
    assert (He : evaluateCode [] createSandboxEnvironment = Return (VObject [])).
    { change (VObject []) with (classify (VObject [])).
      apply evaluateCode_returns with t; [exact Ht|].
      unfold func. rewrite combine_keys_values. fold env. rewrite Hb. reflexivity. }
    rewrite (evaluation_sets_Component [] (VObject []) _ He). simpl.
    split; [reflexivity|]. split; [reflexivity|].
    match goal with |- context [show ?s pv] =>
      rewrite (proj2 (show_falsy s pv Herr)) end.
    simpl. eauto.
Qed.

End SessionMore.

Lemma events_touch_only_their_state_witness :
  let trace := [(0, NameInput (lit "Foo")); (1, Save); (2, Delete 0)] in
  let st := fst (@run demo_host trace (mount 0)) in
  Component st = VFunction ArrowNull /\ code st = [].
Proof.
  intros trace st. split.
  - apply (proj1 (@events_touch_only_their_state demo_host trace (mount 0))). reflexivity.
  - apply (proj1 (proj2 (proj2 (@events_touch_only_their_state demo_host trace (mount 0))))).
    reflexivity.
Defined.

Lemma saved_entry_loads_back_witness :
  let st := {| code := lit "x"; Component := VFunction ArrowNull; history := [];
               componentName := lit "Foo"; timer := None |} in
  let st1 := fst (@run demo_host [(1, Save); (2, Edit (lit "xy")); (3, NameInput (lit "B"))] st) in
  code st1 = lit "xy"
  /\ code (fst (@step demo_host 4 (Load 0) st1)) = lit "x".
Proof.
  intros st st1. split; [reflexivity|].
  assert (Hn : trim (componentName st) <> []) by discriminate.
  exact (proj1 (proj2 (@saved_entry_loads_back demo_host st 1 4
                         [(2, Edit (lit "xy")); (3, NameInput (lit "B"))] Hn eq_refl))).
Defined.

Lemma startup_evaluates_the_empty_buffer_witness :
  Component (fst (@timerExpired demo_host 500 (mount 0))) = VObject []
  /\ @timerExpired demo_host 499 (mount 0) = (mount 0, []).
Proof.
  assert (Hdue : 0 + DEBOUNCE_DELAY <= 500) by (unfold DEBOUNCE_DELAY; lia).
  destruct (@startup_evaluates_the_empty_buffer demo_host 0 500 [] initial_preview
              eq_refl eq_refl Hdue eq_refl) as (Hearly & _ & Hc & _).
  split; [exact Hc|]. apply Hearly. unfold DEBOUNCE_DELAY. lia.
Defined.

(** ** The final buffer is evaluated *)

Lemma final_buffer_then_expiry (buf : jsstring) (trace : list (Z * event)) (tend : Z) :
  final_buffer buf (trace ++ [(tend, TimerExpired)]) = final_buffer buf trace.
Proof.
  revert buf. induction trace as [|[now e] rest IH]; intros buf; [reflexivity|].
  destruct e; simpl; apply IH.
Qed.

(** X19: a run of rapid edits is not lost.  When the timer expires a full
    delay after the last edit of the run, the pipeline has been entered
    exactly once, with the final buffer. *)
Theorem settled_edits_are_evaluated `{Host}
    (t1 tend : Z) (v1 : jsstring) (rest : list (Z * event)) (st : page) :
  v1 <> code st ->
  chronological t1 (rest ++ [(tend, TimerExpired)]) ->
  rapid_edits t1 v1 (rest ++ [(tend, TimerExpired)]) ->
  final_time t1 rest + DEBOUNCE_DELAY <= tend ->
  evaluated (snd (run ((t1, Edit v1) :: rest ++ [(tend, TimerExpired)]) st)) =
    [final_buffer v1 rest].
Proof.
  intros Hne Hchr Hrap Hend.
  rewrite evaluated_cons. simpl.
  rewrite <- (final_buffer_then_expiry v1 rest tend).
  apply settled_run_evaluates_final with t1 t1; try assumption;
    unfold setCode; (case_decide; [congruence|]); reflexivity.
Qed.

Lemma settled_edits_are_evaluated_witness :
  evaluated (snd (@run demo_host
    [(100, Edit (lit "a")); (300, Edit (lit "ab")); (800, TimerExpired)] (mount 0)))
  = [lit "ab"].
Proof.
  assert (Hne : lit "a" <> code (mount 0)) by discriminate.
  assert (Hchr : chronological 100 ([(300, Edit (lit "ab"))] ++ [(800, TimerExpired)]))
    by (simpl; lia).
  assert (Hrap : rapid_edits 100 (lit "a") ([(300, Edit (lit "ab"))] ++ [(800, TimerExpired)])).
  { simpl. unfold DEBOUNCE_DELAY. repeat split; try lia; discriminate. }
  assert (Hend : final_time 100 [(300, Edit (lit "ab"))] + DEBOUNCE_DELAY <= 800)
    by (simpl; unfold DEBOUNCE_DELAY; lia).
  exact (@settled_edits_are_evaluated demo_host 100 800 (lit "a")
           [(300, Edit (lit "ab"))] (mount 0) Hne Hchr Hrap Hend).
Defined.
